(** * Optra (tif, otif) vendor backend of OpenSlide: a shallow embedding

    Models [src/src/openslide-vendor-optra.c]: the XML metadata handling
    ([get_initial_root_xml], [parse_initial_xml]), format detection
    ([optra_detect]), the level comparator ([width_compare]), pyramid
    construction ([optra_open]) and the tile callback ([read_tile]).

    The libraries the backend calls (libtiff, libxml2, GLib, the shared
    tile cache and the generic TIFF helpers of OpenSlide) are represented
    by the record [lib] of their observable results, so that every theorem
    holds for all behaviours of those collaborators. *)

From Stdlib Require Import ZArith String Sorting.Sorted PrimFloat SpecFloat FloatOps.
From stdpp Require Import base gmap strings list.

Open Scope Z_scope.

(* ------------------------------------------------------------------ *)
(** ** Constants of the source *)

(** [#define MIN_THUMBNAIL_DIM 500] *)
Definition MIN_THUMBNAIL_DIM : Z := 500.

(** [static const char XML_ROOT_TAG[] = "ScanInfo";] *)
Definition XML_ROOT_TAG : string := "ScanInfo"%string.

(** libtiff's [FILETYPE_REDUCEDIMAGE] bit of [TIFFTAG_SUBFILETYPE]. *)
Definition FILETYPE_REDUCEDIMAGE : Z := 1.

(** Property names used by the [_openslide_duplicate_*_prop] calls. *)
Definition OPENSLIDE_PROPERTY_NAME_OBJECTIVE_POWER : string :=
  "openslide.objective-power"%string.
Definition OPENSLIDE_PROPERTY_NAME_MPP_X : string := "openslide.mpp-x"%string.
Definition OPENSLIDE_PROPERTY_NAME_MPP_Y : string := "openslide.mpp-y"%string.

(* ------------------------------------------------------------------ *)
(** ** C strings and XML nodes *)

(** [strstr(hay, needle) != NULL]: does [needle] occur in [hay]? *)
Fixpoint strstr (hay needle : string) : bool :=
  String.prefix needle hay ||
  match hay with
  | EmptyString => false
  | String _ rest => strstr rest needle
  end.

(** An attribute node of libxml2 ([xmlAttr]): its namespace (if any),
    its local [name] and its (entity-substituted) value. *)
Record xmlAttr := mkAttr {
  attr_ns : option string;
  attr_name : string;
  attr_value : string
}.

(** An element node ([xmlNode]): its local name and its attribute list
    [properties], in document order. *)
Record xmlNode := mkNode {
  node_name : string;
  node_properties : list xmlAttr
}.

(** [xmlGetNoNsProp(node, name)]: the value of the first attribute of
    [node] called [name] that is in no namespace, or [NULL]. *)
Fixpoint get_no_ns_prop (attrs : list xmlAttr) (name : string) : option string :=
  match attrs with
  | [] => None
  | a :: rest =>
      match attr_ns a with
      | None => if String.eqb (attr_name a) name then Some (attr_value a)
                else get_no_ns_prop rest name
      | Some _ => get_no_ns_prop rest name
      end
  end.

Definition xmlGetNoNsProp (n : xmlNode) (name : string) : option string :=
  get_no_ns_prop (node_properties n) name.

(* ------------------------------------------------------------------ *)
(** ** TIFF directories *)

(** The fields of one TIFF directory that the backend reads; [None]
    stands for a [TIFFGetField] (or buffer read) that fails. *)
Record tdir := mkDir {
  td_tiled : bool;                  (** [TIFFIsTiled] *)
  td_subfiletype : option Z;        (** [TIFFTAG_SUBFILETYPE] *)
  td_desc : option string;          (** [TIFFTAG_IMAGEDESCRIPTION] *)
  td_width : option Z;              (** [TIFFTAG_IMAGEWIDTH] *)
  td_height : option Z;             (** [TIFFTAG_IMAGELENGTH] *)
  td_tile_w : option Z;             (** [TIFFTAG_TILEWIDTH] *)
  td_tile_h : option Z;             (** [TIFFTAG_TILELENGTH] *)
  td_compression : option Z;        (** [TIFFTAG_COMPRESSION] *)
  td_xmlpacket : option string      (** [TIFFTAG_XMLPACKET] buffer *)
}.

(** The generic container description [struct _openslide_tifflike]:
    its directories, directory 0 first. *)
Definition tifflike := list tdir.

(** [_openslide_tifflike_is_tiled(tl, dir)] *)
Definition tifflike_is_tiled (tl : tifflike) (dir : nat) : bool :=
  match tl !! dir with Some d => td_tiled d | None => false end.

(** [_openslide_tifflike_get_buffer(tl, dir, TIFFTAG_XMLPACKET, err)] *)
Definition tifflike_get_xmlpacket (tl : tifflike) (dir : nat) : option string :=
  match tl !! dir with Some d => td_xmlpacket d | None => None end.

(* ------------------------------------------------------------------ *)
(** ** External collaborators *)

(** Results of the library calls the backend makes.  Each field is the
    observable outcome of one external function. *)
Record lib := mkLib {
  (** [_openslide_xml_parse]: [None] when the text is not well-formed
      XML, else the root element of the document. *)
  xml_parse : string -> option xmlNode;
  (** [TIFFIsCODECConfigured(compression)] *)
  TIFFIsCODECConfigured : Z -> bool;
  (** [_openslide_duplicate_int_prop] / [_double_prop]: the reformatted
      text of a property value, or [None] when it does not parse. *)
  int_prop_text : string -> option string;
  double_prop_text : string -> option string;
  (** whether [_openslide_tiff_add_associated_image] succeeds on a
      directory *)
  assoc_image_ok : Z -> bool;
  (** whether [_openslide_tiffcache_get] hands out a TIFF handle *)
  tiffcache_get_ok : bool;
  (** [_openslide_tifflike_init_properties_and_hash(.., lowest, 0, ..)]:
      the standard [tiff.*] properties it adds, or [None] on failure *)
  init_properties_and_hash : Z -> Z -> option (list (string * string))
}.

(** The error each failing path of the backend reports (the [GError]
    message it sets, or the error of the callee it propagates).  A
    [g_set_error] on an error a callee has already set leaves that error
    in place, so after a failing [parse_initial_xml] or
    [_openslide_tiff_set_dir] the callee's error is the one reported. *)
Inductive err :=
| E_NotTiff                       (** "Not a TIFF file" *)
| E_NotTiled                      (** "TIFF is not tiled" *)
| E_XmlPacket                     (** error of [_openslide_tifflike_get_buffer] *)
| E_MarkerMissing                 (** "%s not in XMLPacket" *)
| E_XmlParse                      (** error of [_openslide_xml_parse] *)
| E_BadRoot                       (** "Unrecognized root element in optrascan XML" *)
| E_TiffOpen                      (** error of [_openslide_tiffcache_get] *)
| E_ImageDescription              (** "reading image description failed." *)
| E_AssociatedImage               (** error of [_openslide_tiff_add_associated_image] *)
| E_ImageWidth                    (** "reading image width failed" *)
| E_ImageHeight                   (** "reading image height failed" *)
| E_CompressionRead               (** "Can't read compression scheme" *)
| E_UnsupportedCompression (c : Z) (** "Unsupported TIFF compression: %u" *)
| E_LevelInit                     (** error of [_openslide_tiff_level_init] *)
| E_SetDir                        (** error of [_openslide_tiff_set_dir] *)
| E_Hash.                         (** error of [_openslide_tifflike_init_properties_and_hash] *)

(* ------------------------------------------------------------------ *)
(** ** XML metadata: [get_initial_root_xml] and [parse_initial_xml] *)

(** [get_initial_root_xml]: the root element if its name is
    [XML_ROOT_TAG] ([xmlStrcmp] equality), else failure. *)
Definition get_initial_root_xml (root : xmlNode) : option xmlNode :=
  if String.eqb (node_name root) XML_ROOT_TAG then Some root else None.

(** The copy loop of [parse_initial_xml]:
    [for (attr = scaninfo->properties; attr; attr = attr->next)]. *)
Fixpoint copy_attrs (scaninfo : xmlNode) (attrs : list xmlAttr)
    (props : gmap string string) : gmap string string :=
  match attrs with
  | [] => props
  | attr :: rest =>
      let props' :=
        match xmlGetNoNsProp scaninfo (attr_name attr) with
        | Some value =>
            if String.eqb value "" then props
            else <[String.append "optra." (attr_name attr) := value]> props
        | None => props
        end in
      copy_attrs scaninfo rest props'
  end.

(** [_openslide_duplicate_int_prop] and [_openslide_duplicate_double_prop]:
    copy [src] to [dst] when it parses. *)
Definition duplicate_prop (conv : string -> option string)
    (src dst : string) (props : gmap string string) : gmap string string :=
  match props !! src with
  | Some v => match conv v with Some t => <[dst := t]> props | None => props end
  | None => props
  end.

Section WithLib.
Context (E : lib).

(** [parse_initial_xml(osr, xml, err)]: the new property table, or
    [None] on failure (the table is only written on success). *)
Definition parse_initial_xml (xml : string) (props : gmap string string)
    : option (gmap string string) :=
  match xml_parse E xml with
  | None => None
  | Some root =>
      match get_initial_root_xml root with
      | None => None
      | Some scaninfo =>
          let p := copy_attrs scaninfo (node_properties scaninfo) props in
          let p := duplicate_prop (int_prop_text E) "optra.Magnification"
                     OPENSLIDE_PROPERTY_NAME_OBJECTIVE_POWER p in
          let p := duplicate_prop (double_prop_text E) "optra.PixelResolution"
                     OPENSLIDE_PROPERTY_NAME_MPP_X p in
          let p := duplicate_prop (double_prop_text E) "optra.PixelResolution"
                     OPENSLIDE_PROPERTY_NAME_MPP_Y p in
          Some p
      end
  end.

(** The error a failing [parse_initial_xml] leaves in [err]: that of
    [_openslide_xml_parse], or the one [get_initial_root_xml] sets. *)
Definition parse_initial_xml_error (xml : string) : err :=
  match xml_parse E xml with
  | None => E_XmlParse
  | Some _ => E_BadRoot
  end.

(* ------------------------------------------------------------------ *)
(** ** [optra_detect] *)

(** [optra_detect(filename, tl, err)]: [inr tt] for [return true],
    [inl e] for [return false] with error [e].  [tl = None] is the
    [NULL] container description.  The function writes to nothing but
    its error out-parameter, so it is a function of its inputs. *)
Definition optra_detect (tl : option tifflike) : err + unit :=
  match tl with
  | None => inl E_NotTiff
  | Some tl =>
      if negb (tifflike_is_tiled tl 0) then inl E_NotTiled else
      match tifflike_get_xmlpacket tl 0 with
      | None => inl E_XmlPacket
      | Some xml =>
          if negb (strstr xml XML_ROOT_TAG) then inl E_MarkerMissing else
          match xml_parse E xml with
          | None => inl E_XmlParse
          | Some root =>
              match get_initial_root_xml root with
              | None => inl E_BadRoot
              | Some _ => inr tt
              end
          end
      end
  end.

End WithLib.

(* ------------------------------------------------------------------ *)
(** ** Levels and the comparator *)

(** [struct level]: the [_openslide_tiff_level] part the backend reads
    ([dir], [image_w], [image_h], tile geometry); the grid is owned by
    the level and accounted for in [resources]. *)
Record level := mkLevel {
  lv_dir : Z;
  image_w : Z;
  image_h : Z;
  tile_w : Z;
  tile_h : Z;
  tiles_across : Z;
  tiles_down : Z
}.

(** Modelled from the spec: [_openslide_tiff_level_init]
    (openslide-decode-tiff.c, not under src/).  It records the directory
    index and reads the directory's image and tile geometry; it fails
    when a field cannot be read. *)
Definition tiff_level_init (dir : Z) (d : tdir) : option level :=
  match td_width d, td_height d, td_tile_w d, td_tile_h d with
  | Some w, Some h, Some tw, Some th =>
      if (0 <? tw) && (0 <? th) then
        Some (mkLevel dir w h tw th ((w + tw - 1) / tw) ((h + th - 1) / th))
      else None
  | _, _, _, _ => None
  end.

(** [width_compare]: negative when [a] is wider than [b]. *)
Definition width_compare (la lb : level) : Z :=
  if image_w la >? image_w lb then -1
  else if image_w la =? image_w lb then 0
  else 1.

(** GLib's [g_ptr_array_sort] is a stable sort by the comparator (a merge
    sort); all stable sorts produce the same sequence, so it is modelled
    by a stable insertion sort: each element is placed after every element
    that does not compare greater than it. *)
Fixpoint sort_insert (cmp : level -> level -> Z) (x : level) (ys : list level)
    : list level :=
  match ys with
  | [] => [x]
  | y :: ys' => if cmp x y <? 0 then x :: ys else y :: sort_insert cmp x ys'
  end.

Definition g_ptr_array_sort (xs : list level) (cmp : level -> level -> Z)
    : list level :=
  fold_left (fun acc x => sort_insert cmp x acc) xs [].

(* ------------------------------------------------------------------ *)
(** ** The slide handle and the resources of [optra_open] *)

(** The parts of [openslide_t] the backend writes. *)
Record openslide := mkOsr {
  properties : gmap string string;
  associated_images : gmap string Z;   (** name -> source directory *)
  levels : option (list level);        (** [osr->levels], [NULL] = [None] *)
  level_count : Z;
  data_set : bool;                     (** [osr->data != NULL] *)
  ops_set : bool                       (** [osr->ops == &optra_ops] *)
}.

(** Live objects owned by the backend: TIFF handle caches (the decoder
    pool), TIFF handles checked out of them, [struct level] allocations
    and grids. *)
Record resources := mkRes {
  tiffcaches : nat;
  tiffs_out : nat;
  live_levels : nat;
  live_grids : nat
}.

(** The state of a run of [optra_open]: the slide handle, the resources,
    the locals [level_array], [cached_tiff] (held or not) and [tn_dir],
    the directory the TIFF handle is on, and the hash accumulator
    [quickhash1] (the directories it was fed). *)
Record ost := mkOst {
  osr : openslide;
  res : resources;
  level_array : option (list level);
  tiff_held : bool;
  tn_dir : Z;
  cur_dir : Z;
  quickhash : option (Z * Z)
}.

(** Results of a run: normal return, a [goto FAIL] with its error, or
    undefined behaviour of C (an out-of-bounds read). *)
Inductive outcome (A : Type) :=
| Ok (a : A)
| Fail (e : err)
| Undef.
Arguments Ok {A} a.
Arguments Fail {A} e.
Arguments Undef {A}.

Definition M (A : Type) := ost -> outcome A * ost.

Definition ret {A} (a : A) : M A := fun s => (Ok a, s).
Definition fail {A} (e : err) : M A := fun s => (Fail e, s).
Definition undef {A} : M A := fun s => (Undef, s).
Definition modify (f : ost -> ost) : M unit := fun s => (Ok tt, f s).
Definition gets {A} (f : ost -> A) : M A := fun s => (Ok (f s), s).
Definition bind {A B} (m : M A) (k : A -> M B) : M B :=
  fun s => match m s with
           | (Ok a, s') => k a s'
           | (Fail e, s') => (Fail e, s')
           | (Undef, s') => (Undef, s')
           end.

Declare Scope optra_scope.
Notation "x <- m ;; k" := (bind m (fun x => k))
  (at level 100, m at next level, right associativity) : optra_scope.
Notation "m ;;; k" := (bind m (fun _ => k))
  (at level 100, right associativity) : optra_scope.
Open Scope optra_scope.

(** Field updates of the state. *)
Definition set_osr (o : openslide) (s : ost) : ost :=
  mkOst o (res s) (level_array s) (tiff_held s) (tn_dir s) (cur_dir s) (quickhash s).
Definition set_res (r : resources) (s : ost) : ost :=
  mkOst (osr s) r (level_array s) (tiff_held s) (tn_dir s) (cur_dir s) (quickhash s).
Definition set_level_array (la : option (list level)) (s : ost) : ost :=
  mkOst (osr s) (res s) la (tiff_held s) (tn_dir s) (cur_dir s) (quickhash s).
Definition set_tiff_held (b : bool) (s : ost) : ost :=
  mkOst (osr s) (res s) (level_array s) b (tn_dir s) (cur_dir s) (quickhash s).
Definition set_tn_dir (t : Z) (s : ost) : ost :=
  mkOst (osr s) (res s) (level_array s) (tiff_held s) t (cur_dir s) (quickhash s).
Definition set_cur_dir (c : Z) (s : ost) : ost :=
  mkOst (osr s) (res s) (level_array s) (tiff_held s) (tn_dir s) c (quickhash s).
Definition set_quickhash (q : option (Z * Z)) (s : ost) : ost :=
  mkOst (osr s) (res s) (level_array s) (tiff_held s) (tn_dir s) (cur_dir s) q.

Definition set_properties (p : gmap string string) (o : openslide) : openslide :=
  mkOsr p (associated_images o) (levels o) (level_count o) (data_set o) (ops_set o).
Definition set_associated (a : gmap string Z) (o : openslide) : openslide :=
  mkOsr (properties o) a (levels o) (level_count o) (data_set o) (ops_set o).
Definition install (ls : list level) (n : Z) (o : openslide) : openslide :=
  mkOsr (properties o) (associated_images o) (Some ls) n true true.

Definition res_tiffcaches (f : nat -> nat) (r : resources) : resources :=
  mkRes (f (tiffcaches r)) (tiffs_out r) (live_levels r) (live_grids r).
Definition res_tiffs_out (f : nat -> nat) (r : resources) : resources :=
  mkRes (tiffcaches r) (f (tiffs_out r)) (live_levels r) (live_grids r).
Definition res_levels (f : nat -> nat) (r : resources) : resources :=
  mkRes (tiffcaches r) (tiffs_out r) (f (live_levels r)) (live_grids r).
Definition res_grids (f : nat -> nat) (r : resources) : resources :=
  mkRes (tiffcaches r) (tiffs_out r) (live_levels r) (f (live_grids r)).

Definition modify_res (f : resources -> resources) : M unit :=
  modify (fun s => set_res (f (res s)) s).
Definition modify_osr (f : openslide -> openslide) : M unit :=
  modify (fun s => set_osr (f (osr s)) s).

(** [C]'s [(uint32_t) len - 1]: [guint] arithmetic wraps around. *)
Definition guint_pred (len : Z) : Z := (len - 1) mod 2 ^ 32.

(** [pdata[i]] of a [GPtrArray] with contents [l]: [None] when [i] is
    past the end (an out-of-bounds read). *)
Fixpoint pdata_at {A} (l : list A) (i : Z) : option A :=
  match l with
  | [] => None
  | x :: xs => if i =? 0 then Some x else pdata_at xs (i - 1)
  end.

(** Inserting a list of properties ([g_hash_table_insert] in order). *)
Definition insert_props (ps : list (string * string)) (p : gmap string string)
    : gmap string string :=
  fold_left (fun acc kv => <[kv.1 := kv.2]> acc) ps p.

Section Open.
Context (E : lib).

(** Modelled from the spec: [_openslide_tiff_add_associated_image]
    (openslide-decode-tiff.c, not under src/): it registers the
    directory under [name] in the slide's name-keyed associated-image
    mapping, or fails. *)
Definition tiff_add_associated_image (name : string) (dir : Z) : M unit :=
  if assoc_image_ok E dir then
    modify_osr (fun o => set_associated (<[name := dir]> (associated_images o)) o)
  else fail E_AssociatedImage.

(** [g_slice_new0(struct level)] followed by [_openslide_tiff_level_init],
    freeing the level on failure, and [_openslide_grid_create_simple];
    the level is then appended with [g_ptr_array_add]. *)
Definition create_level (dir : Z) (d : tdir) : M unit :=
  modify_res (res_levels S);;;
  match tiff_level_init dir d with
  | None => modify_res (res_levels Nat.pred);;; fail E_LevelInit
  | Some l =>
      modify_res (res_grids S);;;
      modify (fun s => set_level_array
                         (option_map (fun la => la ++ [l]) (level_array s)) s)
  end.

(** The body of the [do { ... } while (TIFFReadDirectory(tiff))] loop for
    directory [dir]; [ret tt] is [continue]. *)
Definition walk_body (dir : Z) (d : tdir) : M unit :=
  if negb (td_tiled d) then ret tt else
  go <- (if dir =? 0 then ret true else
         match td_subfiletype d with
         | None => ret false
         | Some subfiletype =>
             if Z.land subfiletype FILETYPE_REDUCEDIMAGE =? 0 then
               match td_desc d with
               | None => fail E_ImageDescription
               | Some image_desc =>
                   tiff_add_associated_image image_desc dir;;; ret false
               end
             else
               match td_width d with
               | None => fail E_ImageWidth
               | Some imwidth =>
                   match td_height d with
                   | None => fail E_ImageHeight
                   | Some imheight =>
                       (if (imwidth >? MIN_THUMBNAIL_DIM) &&
                           (imheight >? MIN_THUMBNAIL_DIM)
                        then modify (set_tn_dir dir) else ret tt);;;
                       ret true
                   end
               end
         end) ;;
  if negb go then ret tt else
  match td_compression d with
  | None => fail E_CompressionRead
  | Some compression =>
      if negb (TIFFIsCODECConfigured E compression)
      then fail (E_UnsupportedCompression compression)
      else create_level dir d
  end.

(** The directory walk, from directory [dir] on; [TIFFReadDirectory]
    moves the handle to the next directory until none remain. *)
Fixpoint walk (dir : Z) (ds : list tdir) : M unit :=
  match ds with
  | [] => ret tt
  | d :: ds' =>
      modify (set_cur_dir dir);;;
      walk_body dir d;;;
      walk (dir + 1) ds'
  end.

(** [optra_open] from [_openslide_tiffcache_get] to the final
    [return true]; a [Fail] is a [goto FAIL] and leaves the state as it
    is at the jump. *)
Definition optra_open_body (tl : tifflike) : M unit :=
  (if tiffcache_get_ok E
   then modify (fun s => set_cur_dir 0 (set_tiff_held true
                           (set_res (res_tiffs_out S (res s)) s)))
   else fail E_TiffOpen);;;
  match tifflike_get_xmlpacket tl 0 with
  | None => fail E_XmlPacket
  | Some xml =>
      props <- gets (fun s => properties (osr s)) ;;
      match parse_initial_xml E xml props with
      | None => fail (parse_initial_xml_error E xml)
      | Some props' =>
          modify_osr (set_properties props');;;
          cur <- gets cur_dir ;;
          modify (set_tn_dir cur);;;
          walk 0 tl;;;
          tn <- gets tn_dir ;;
          (if (0 <=? tn) && (tn <? Z.of_nat (length tl))
           then modify (set_cur_dir tn) else fail E_SetDir);;;
          cur' <- gets cur_dir ;;
          tiff_add_associated_image "thumbnail" cur';;;
          la <- gets level_array ;;
          let sorted := g_ptr_array_sort (default [] la) width_compare in
          modify (set_level_array (Some sorted));;;
          match pdata_at sorted (guint_pred (Z.of_nat (length sorted))) with
          | None => undef
          | Some top_level =>
              match init_properties_and_hash E (lv_dir top_level) 0 with
              | None => fail E_Hash
              | Some ps =>
                  modify_osr (fun o => set_properties
                                         (insert_props ps (properties o)) o);;;
                  modify (set_quickhash (Some (lv_dir top_level, 0)));;;
                  modify (fun s => set_level_array None
                    (set_osr (install sorted (Z.of_nat (length sorted)) (osr s)) s));;;
                  modify (fun s => set_tiff_held false
                                     (set_res (res_tiffs_out Nat.pred (res s)) s))
              end
          end
      end
  end.

(** The [FAIL:] block: destroy the grid and free every level of
    [level_array], put the TIFF handle back (when one was obtained) and
    destroy the handle cache. *)
Definition free_levels (la : list level) (r : resources) : resources :=
  fold_left (fun r _ => res_levels Nat.pred (res_grids Nat.pred r)) la r.

Definition fail_cleanup (s : ost) : ost :=
  let r := match level_array s with
           | Some la => free_levels la (res s)
           | None => res s
           end in
  let r := if tiff_held s then res_tiffs_out Nat.pred r else r in
  let r := res_tiffcaches Nat.pred r in
  set_res r (set_tiff_held false (set_level_array None s)).

(** [optra_open(osr, filename, tl, quickhash1, err)]:
    [g_ptr_array_new()] and [_openslide_tiffcache_create(filename)], the
    body, and the [FAIL:] block on a [goto FAIL]. *)
Definition optra_open (tl : tifflike) : M unit :=
  fun s0 =>
    let s1 := set_level_array (Some [])
                (set_tiff_held false (set_res (res_tiffcaches S (res s0)) s0)) in
    match optra_open_body tl s1 with
    | (Ok tt, s) => (Ok tt, s)
    | (Fail e, s) => (Fail e, fail_cleanup s)
    | (Undef, s) => (Undef, s)
    end.

End Open.

(** [destroy(osr)]: [_openslide_tiffcache_destroy(data->tc)] and
    [g_slice_free] of the private data (a [NULL] [osr->data] is
    dereferenced), then for [i < osr->level_count] the grid and the
    [struct level] of [osr->levels[i]] are freed (reading past the end of
    [osr->levels], or through a [NULL] one, is undefined), then
    [g_free(osr->levels)]. *)
Fixpoint destroy_levels (ls : list level) (i : Z) (n : nat) (r : resources)
    : option resources :=
  match n with
  | O => Some r
  | S n' =>
      match pdata_at ls i with
      | None => None
      | Some _ => destroy_levels ls (i + 1) n' (res_levels Nat.pred (res_grids Nat.pred r))
      end
  end.

Definition destroy : M unit :=
  fun s =>
    if negb (data_set (osr s)) then (Undef, s) else
    let r := res_tiffcaches Nat.pred (res s) in
    match destroy_levels (default [] (levels (osr s))) 0
            (Z.to_nat (level_count (osr s))) r with
    | None => (Undef, s)
    | Some r' => (Ok tt, set_res r' s)
    end.

(* ------------------------------------------------------------------ *)
(** ** [read_tile] and the shared tile cache *)

(** A decoded tile: its ARGB32 pixels, row-major. *)
Definition buffer := list Z.

(** The state [read_tile] touches: the shared cache keyed by
    (level identity, column, row), the bytes obtained from
    [g_slice_alloc] and not yet freed (a cached buffer stays allocated,
    owned by the cache), the number of tile decodes performed, the
    cache-entry references held, and the buffers painted on [cr]. *)
Record tstate := mkT {
  cache : gmap (Z * Z * Z) buffer;
  slice_bytes : Z;
  decodes : nat;
  entry_refs : Z;
  canvas : list buffer
}.

Section ReadTile.

(** [_openslide_tiff_read_tile(tiffl, tiff, tiledata, col, row, err)]
    and [_openslide_tiff_clip_tile(tiffl, tiledata, col, row, err)]: the
    decoded (resp. clipped) pixels, or [None] on failure. *)
Context (tiff_read_tile : level -> Z -> Z -> option buffer).
Context (tiff_clip_tile : level -> Z -> Z -> buffer -> option buffer).

Definition g_slice_alloc (n : Z) (t : tstate) : tstate :=
  mkT (cache t) (slice_bytes t + n) (decodes t) (entry_refs t) (canvas t).
Definition g_slice_free1 (n : Z) (t : tstate) : tstate :=
  mkT (cache t) (slice_bytes t - n) (decodes t) (entry_refs t) (canvas t).
Definition count_decode (t : tstate) : tstate :=
  mkT (cache t) (slice_bytes t) (S (decodes t)) (entry_refs t) (canvas t).
(** [_openslide_cache_put]: insert and return a referenced entry. *)
Definition cache_put (k : Z * Z * Z) (b : buffer) (t : tstate) : tstate :=
  mkT (<[k := b]> (cache t)) (slice_bytes t) (decodes t) (entry_refs t + 1) (canvas t).
(** [_openslide_cache_get] on a hit returns a referenced entry. *)
Definition cache_ref (t : tstate) : tstate :=
  mkT (cache t) (slice_bytes t) (decodes t) (entry_refs t + 1) (canvas t).
(** [_openslide_cache_entry_unref] *)
Definition cache_entry_unref (t : tstate) : tstate :=
  mkT (cache t) (slice_bytes t) (decodes t) (entry_refs t - 1) (canvas t).
(** [cairo_set_source_surface] + [cairo_paint] of a tile buffer. *)
Definition cairo_paint (b : buffer) (t : tstate) : tstate :=
  mkT (cache t) (slice_bytes t) (decodes t) (entry_refs t) (canvas t ++ [b]).

(** [read_tile(osr, cr, level, tile_col, tile_row, tiff, err)] for the
    level [l] whose identity in the cache is [lid]. *)
Definition read_tile (lid : Z) (l : level) (tile_col tile_row : Z) (t : tstate)
    : bool * tstate :=
  let tw := tile_w l in
  let th := tile_h l in
  let key := (lid, tile_col, tile_row) in
  match cache t !! key with
  | Some tiledata =>
      (true, cache_entry_unref (cairo_paint tiledata (cache_ref t)))
  | None =>
      let t1 := count_decode (g_slice_alloc (tw * th * 4) t) in
      match tiff_read_tile l tile_col tile_row with
      | None => (false, g_slice_free1 (tw * th * 4) t1)
      | Some tiledata =>
          match tiff_clip_tile l tile_col tile_row tiledata with
          | None => (false, g_slice_free1 (tw * th * 4) t1)
          | Some tiledata' =>
              (true, cache_entry_unref
                       (cairo_paint tiledata' (cache_put key tiledata' t1)))
          end
      end
  end.

(** Two successive reads of the same tile. *)
Definition read_twice (lid : Z) (l : level) (col row : Z) (t : tstate)
    : bool * bool * tstate :=
  let (ok1, t1) := read_tile lid l col row t in
  let (ok2, t2) := read_tile lid l col row t1 in
  (ok1, ok2, t2).

End ReadTile.

(* ------------------------------------------------------------------ *)
(** ** Sample inputs *)

(** The root element of a sample Optra XML packet,
    [<ScanInfo xmlns:v='urn:v' Magnification='20' v:Scanner='X'
      PixelResolution='0.25'/>]. *)
Definition sample_root : xmlNode :=
  mkNode "ScanInfo"
    [mkAttr None "Magnification" "20";
     mkAttr (Some "urn:v"%string) "Scanner" "X";
     mkAttr None "PixelResolution" "0.25"].

(** Collaborators: every packet parses to [sample_root], only JPEG
    (compression 7) is configured, numbers are copied as written, every
    image can be registered, the TIFF opens and hashing adds one
    property. *)
Definition sample_lib : lib :=
  mkLib (fun _ => Some sample_root) (fun c => c =? 7)
    (fun v => Some v) (fun v => Some v) (fun _ => true) true
    (fun _ _ => Some [("tiff.Make"%string, "Optra"%string)]).

Definition sample_xml : string := "<ScanInfo/>".

Definition sample_dir (tiled : bool) (subfiletype : option Z) (w h c : Z) : tdir :=
  mkDir tiled subfiletype (Some "label"%string) (Some w) (Some h)
    (Some 256) (Some 256) (Some c) (Some sample_xml).

(** Base image, reduced images at 1, 2 (600x600), 4 (400x400) and
    5 (800x800), and a label image at 3. *)
Definition sample_tl : tifflike :=
  [sample_dir true (Some 0) 40000 30000 7;
   sample_dir true (Some 1) 20000 15000 7;
   sample_dir true (Some 1) 600 600 7;
   sample_dir true (Some 0) 700 700 7;
   sample_dir true (Some 1) 400 400 7;
   sample_dir true (Some 1) 800 800 7].

(** Base image and a reduced 600x600 directory that is not tiled. *)
Definition sample_tl_untiled : tifflike :=
  [sample_dir true (Some 0) 40000 30000 7;
   sample_dir false (Some 1) 600 600 7].

(** Base image, a label image, and a reduced image whose compression
    (9) is not configured. *)
Definition sample_tl_badcodec : tifflike :=
  [sample_dir true (Some 0) 40000 30000 7;
   sample_dir true (Some 0) 700 700 7;
   sample_dir true (Some 1) 20000 15000 9].

(** An untiled directory 0 and a tiled label image: no directory is a
    level source. *)
Definition sample_tl_label_only : tifflike :=
  [sample_dir false None 1000 1000 7;
   sample_dir true (Some 0) 700 700 7].

(** A fresh slide handle and the state [optra_open] starts from. *)
Definition sample_osr : openslide := mkOsr ∅ ∅ None 0 false false.
Definition sample_st : ost := mkOst sample_osr (mkRes 0 0 0 0) None false 0 0 None.

(** A level, and tile decoding that always succeeds. *)
Definition sample_level : level := mkLevel 0 1000 1000 256 256 4 4.
Definition sample_decode (l : level) (col row : Z) : option buffer := Some [col; row].
Definition sample_clip (l : level) (col row : Z) (b : buffer) : option buffer := Some b.
Definition sample_tstate : tstate := mkT ∅ 0 0 0 [].
(** Tile decoding that always fails, and a cache already holding tile
    (0, 0) of level 0. *)
Definition sample_decode_fail (l : level) (col row : Z) : option buffer := None.
Definition sample_tstate_cached : tstate := mkT {[(0, 0, 0) := [7]]} 0 0 0 [].

(* ------------------------------------------------------------------ *)
(** ** [make-tables.c]: the YCbCr to RGB tables *)

(** An [int] converted to [double] (exact for the values used here). *)
Definition int_to_double (z : Z) : float :=
  SF2Prim (binary_normalize prec emax z 0 false).

(** C's [round] on a finite [double]: the nearest integer, halfway cases
    away from zero, computed exactly on the value [(-1)^s * m * 2^e] of
    the double; [None] for an infinity or a NaN. *)
Definition c_round (x : float) : option Z :=
  match Prim2SF x with
  | S754_zero _ => Some 0
  | S754_finite s m e =>
      let v := if 0 <=? e then Z.pos m * 2 ^ e
               else let d := 2 ^ (- e) in
                    if d <=? 2 * (Z.pos m mod d) then Z.pos m / d + 1
                    else Z.pos m / d in
      Some (if s then - v else v)
  | _ => None
  end.

Local Set Warnings "-inexact-float".

(** The entries [make_ycbcr_tables] prints, [(int) round(...)] of the
    [double] expressions of the source (the literals are the nearest
    doubles, as in C). *)
Definition R_Cr (i : Z) : option Z :=
  c_round (PrimFloat.mul 1.402%float (int_to_double (i - 128))).

Definition G_CbCr (i j : Z) : option Z :=
  c_round (PrimFloat.sub (PrimFloat.mul (PrimFloat.opp 0.34414%float) (int_to_double (i - 128)))
                         (PrimFloat.mul 0.71414%float (int_to_double (j - 128)))).

Definition B_Cb (i : Z) : option Z :=
  c_round (PrimFloat.mul 1.772%float (int_to_double (i - 128))).

Local Set Warnings "inexact-float".

(** The table indices [0 <= i < 256] of the loops. *)
Definition table_index : list Z := map Z.of_nat (seq 0 256).

(* ------------------------------------------------------------------ *)
(** ** Notions the theorems are stated with *)

(** The directories the walk of [optra_open] makes a level of: tiled,
    and directory 0 or a directory whose subfile type is readable and has
    the reduced-image bit. *)
Definition level_source (dir : Z) (d : tdir) : bool :=
  td_tiled d &&
  ((dir =? 0) ||
   match td_subfiletype d with
   | Some sft => negb (Z.land sft FILETYPE_REDUCEDIMAGE =? 0)
   | None => false
   end).

(** The level-source directories of [ds], numbered from [dir], in order. *)
Fixpoint level_dirs (dir : Z) (ds : list tdir) : list Z :=
  match ds with
  | [] => []
  | d :: ds' => (if level_source dir d then [dir] else []) ++ level_dirs (dir + 1) ds'
  end.

(** Exact rounding of the rational [p / q] ([q > 0]), halfway cases away
    from zero. *)
Definition round_half_away (p q : Z) : Z :=
  let a := (2 * Z.abs p + q) / (2 * q) in if p <? 0 then - a else a.

(** The order [width_compare] sorts by: [a] before [b] when [a] is at
    least as wide. *)
Definition wider_eq (a b : level) : Prop := image_w b <= image_w a.

(** The thumbnail rule of the directory walk, stated over the directory
    list: a tiled directory other than directory 0 whose subfile type is
    readable and has the reduced-image bit, with width and height above
    [MIN_THUMBNAIL_DIM]. *)
Definition thumbnail_candidate (dir : Z) (d : tdir) : bool :=
  td_tiled d && negb (dir =? 0) &&
  match td_subfiletype d, td_width d, td_height d with
  | Some sft, Some w, Some h =>
      negb (Z.land sft FILETYPE_REDUCEDIMAGE =? 0) &&
      ((w >? MIN_THUMBNAIL_DIM) && (h >? MIN_THUMBNAIL_DIM))
  | _, _, _ => false
  end.

(** The last candidate of [ds] (numbered from [dir]), [cand] if none. *)
Fixpoint last_thumbnail (dir : Z) (ds : list tdir) (cand : Z) : Z :=
  match ds with
  | [] => cand
  | d :: ds' =>
      last_thumbnail (dir + 1) ds' (if thumbnail_candidate dir d then dir else cand)
  end.

(** What holds at every point of the body of [optra_open] before the
    final install, relative to the resources [r0] and the handle [o0] at
    the call: one more handle cache, the TIFF handle checked out when
    held, one [struct level] and one grid per element of [level_array],
    and nothing installed on the handle. *)
Definition open_inv (r0 : resources) (o0 : openslide) (s : ost) : Prop :=
  tiffcaches (res s) = S (tiffcaches r0) /\
  tiffs_out (res s) = (tiffs_out r0 + if tiff_held s then 1 else 0)%nat /\
  (exists la, level_array s = Some la /\
     live_levels (res s) = (live_levels r0 + length la)%nat /\
     live_grids (res s) = (live_grids r0 + length la)%nat) /\
  levels (osr s) = levels o0 /\ level_count (osr s) = level_count o0 /\
  data_set (osr s) = data_set o0 /\ ops_set (osr s) = ops_set o0.

(** Attributes in no namespace. *)
Definition no_ns (a : xmlAttr) : bool :=
  match attr_ns a with None => true | Some _ => false end.

(** The local names of the attributes in no namespace; in well-formed
    XML they are pairwise distinct. *)
Definition no_ns_names (attrs : list xmlAttr) : list string :=
  map attr_name (List.filter no_ns attrs).

Definition optra_key (name : string) : string := String.append "optra." name.

(* ================================================================== *)
(** * Proofs *)

(** ** The level sort *)

Lemma width_compare_neg (a b : level) :
  (width_compare a b <? 0) = (image_w a >? image_w b).
Proof.
  unfold width_compare.
  destruct (image_w a >? image_w b) eqn:Hgt; [reflexivity|].
  destruct (image_w a =? image_w b); reflexivity.
Qed.

Lemma sort_insert_perm (x : level) (ys : list level) :
  Permutation (sort_insert width_compare x ys) (x :: ys).
Proof.
  induction ys as [|y ys IH]; simpl; [reflexivity|].
  destruct (width_compare x y <? 0); [reflexivity|].
  rewrite IH. constructor.
Qed.

Lemma sort_insert_sorted (x : level) (ys : list level) :
  Sorted wider_eq ys -> Sorted wider_eq (sort_insert width_compare x ys).
Proof.
  induction 1 as [|y ys Hs IH Hhd]; simpl.
  - repeat constructor.
  - rewrite width_compare_neg.
    destruct (image_w x >? image_w y) eqn:Hgt.
    + constructor; [constructor; assumption|].
      constructor. unfold wider_eq. lia.
    + constructor; [exact IH|].
      destruct ys as [|y' ys']; simpl.
      * constructor. unfold wider_eq. lia.
      * rewrite width_compare_neg.
        destruct (image_w x >? image_w y'); constructor.
        -- unfold wider_eq. lia.
        -- inversion Hhd; assumption.
Qed.

Lemma g_ptr_array_sort_sorted (xs : list level) :
  Sorted wider_eq (g_ptr_array_sort xs width_compare).
Proof.
  unfold g_ptr_array_sort.
  assert (Hgen : forall acc, Sorted wider_eq acc ->
            Sorted wider_eq (fold_left (fun acc x => sort_insert width_compare x acc) xs acc)).
  { induction xs as [|x xs IH]; intros acc Hacc; simpl; [assumption|].
    apply IH, sort_insert_sorted, Hacc. }
  apply Hgen. constructor.
Qed.

Lemma g_ptr_array_sort_perm (xs : list level) :
  Permutation (g_ptr_array_sort xs width_compare) xs.
Proof.
  unfold g_ptr_array_sort.
  assert (Hgen : forall acc, Permutation
            (fold_left (fun acc x => sort_insert width_compare x acc) xs acc) (acc ++ xs)).
  { induction xs as [|x xs IH]; intros acc; simpl.
    - rewrite app_nil_r. reflexivity.
    - rewrite IH, sort_insert_perm.
      rewrite <- Permutation_middle. reflexivity. }
  apply Hgen.
Qed.

Lemma g_ptr_array_sort_length (xs : list level) :
  length (g_ptr_array_sort xs width_compare) = length xs.
Proof. apply Permutation_length, g_ptr_array_sort_perm. Qed.

Lemma wider_eq_trans : Transitive wider_eq.
Proof. intros a b c. unfold wider_eq. lia. Qed.

(** In a list sorted by [wider_eq], an element at a smaller index is at
    least as wide as one at a larger index. *)
Lemma sorted_lookup_wider (ls : list level) (i j : nat) (a b : level) :
  Sorted wider_eq ls -> (i < j)%nat -> ls !! i = Some a -> ls !! j = Some b ->
  image_w b <= image_w a.
Proof.
  intros Hs. apply Sorted_StronglySorted in Hs; [|exact wider_eq_trans].
  revert i j. induction Hs as [|x ls Hs IH Hall]; intros i j Hij Ha Hb.
  - discriminate.
  - destruct i as [|i], j as [|j]; simpl in *; try lia.
    + injection Ha as <-. rewrite Forall_forall in Hall.
      apply Hall. eapply list_elem_of_lookup_2, Hb.
    + eapply (IH i j); eauto; lia.
Qed.

(** ** The directory walk *)

Ltac unfold_m :=
  unfold walk_body, create_level, tiff_add_associated_image, modify_res,
    modify_osr, bind, modify, gets, ret, fail, undef in *.

Ltac crunch :=
  repeat (simpl in *; first
    [ match goal with
      | H : (_, _) = (_, _) |- _ => injection H as; subst
      | H : Ok _ = Fail _ |- _ => discriminate H
      | H : Fail _ = Ok _ |- _ => discriminate H
      | H : Undef = _ |- _ => discriminate H
      | H : _ = Undef |- _ => discriminate H
      | H : Ok _ = Ok _ |- _ => injection H as; subst
      | H : Fail _ = Fail _ |- _ => injection H as; subst
      end
    | match goal with
      | H : context [match ?x with _ => _ end] |- _ => destruct x eqn:?
      end ]).

Ltac use_eqns :=
  repeat match goal with
         | H : negb _ = true |- _ => apply negb_true_iff in H
         | H : negb _ = false |- _ => apply negb_false_iff in H
         end;
  repeat match goal with H : ?x = _ |- context [?x] => rewrite H end;
  simpl;
  repeat match goal with |- context [match ?x with _ => _ end] =>
           match x with
           | context [match _ with _ => _ end] => fail 1
           | _ => destruct x eqn:?; simpl
           end
         end.

Section Walk.
Context (E : lib).

Lemma walk_body_tn_dir (dir : Z) (d : tdir) (s s' : ost) :
  walk_body E dir d s = (Ok tt, s') ->
  tn_dir s' = if thumbnail_candidate dir d then dir else tn_dir s.
Proof.
  intros H. unfold_m. unfold thumbnail_candidate.
  crunch; use_eqns; congruence.
Qed.

Lemma walk_tn_dir (ds : list tdir) (dir : Z) (s s' : ost) :
  walk E dir ds s = (Ok tt, s') ->
  tn_dir s' = last_thumbnail dir ds (tn_dir s).
Proof.
  revert dir s. induction ds as [|d ds IH]; intros dir s H; simpl in *.
  - unfold ret in H. injection H as <-. reflexivity.
  - unfold bind, modify in H.
    destruct (walk_body E dir d (set_cur_dir dir s)) as [[[]|e|] s1] eqn:Hb;
      try discriminate.
    apply walk_body_tn_dir in Hb. simpl in Hb.
    rewrite (IH _ _ H), Hb. reflexivity.
Qed.

Lemma walk_body_length (dir : Z) (d : tdir) (s s' : ost) (o : outcome unit)
    (la : list level) :
  walk_body E dir d s = (o, s') -> level_array s = Some la ->
  exists la', level_array s' = Some la' /\ (length la' <= S (length la))%nat.
Proof.
  intros H Hla. unfold_m. crunch; simpl; rewrite ?Hla; simpl;
    (eexists; split; [reflexivity|]); rewrite ?length_app; simpl; lia.
Qed.

Lemma walk_length (ds : list tdir) (dir : Z) (s s' : ost) (o : outcome unit)
    (la : list level) :
  walk E dir ds s = (o, s') -> level_array s = Some la ->
  exists la', level_array s' = Some la' /\ (length la' <= length la + length ds)%nat.
Proof.
  revert dir s la. induction ds as [|d ds IH]; intros dir s la H Hla; simpl in *.
  - unfold ret in H. injection H as <- <-. exists la. split; [assumption | lia].
  - unfold bind, modify in H.
    destruct (walk_body E dir d (set_cur_dir dir s)) as [[[]|e|] s1] eqn:Hb.
    + destruct (walk_body_length _ _ _ _ _ la Hb Hla) as [la1 [Hla1 Hlen1]].
      destruct (IH _ _ _ H Hla1) as [la2 [Hla2 Hlen2]].
      exists la2. split; [assumption | lia].
    + injection H as <- <-.
      destruct (walk_body_length _ _ _ _ _ la Hb Hla) as [la1 [Hla1 Hlen1]].
      exists la1. split; [assumption | lia].
    + injection H as <- <-.
      destruct (walk_body_length _ _ _ _ _ la Hb Hla) as [la1 [Hla1 Hlen1]].
      exists la1. split; [assumption | lia].
Qed.

End Walk.

(** ** Runs of [optra_open] *)

Ltac unfold_open :=
  unfold optra_open, optra_open_body, tiff_add_associated_image, modify_res,
    modify_osr, bind, modify, gets, ret, fail, undef in *.

Section OpenRuns.
Context (E : lib).

(** A successful run: the walk succeeded, the installed levels are the
    sorted level array, the hash was fed the directory of the level read
    at [pdata[len - 1]], and ["thumbnail"] is the walk's [tn_dir]. *)
Lemma optra_open_ok_inv (tl : tifflike) (s0 s' : ost) :
  optra_open E tl s0 = (Ok tt, s') ->
  exists s1 s2 top,
    walk E 0 tl s1 = (Ok tt, s2) /\ tn_dir s1 = 0 /\ level_array s1 = Some [] /\
    let sorted := g_ptr_array_sort (default [] (level_array s2)) width_compare in
    pdata_at sorted (guint_pred (Z.of_nat (length sorted))) = Some top /\
    levels (osr s') = Some sorted /\
    quickhash s' = Some (lv_dir top, 0) /\
    associated_images (osr s') !! "thumbnail"%string = Some (tn_dir s2).
Proof.
  intros H. unfold_open. crunch.
  match goal with
  | Hw : walk E 0 tl _ = (Ok ?u, ?s2), Hp : pdata_at _ _ = Some ?top |- _ =>
      destruct u; eexists _, s2, top; split; [exact Hw|]
  end.
  simpl. repeat split; try assumption.
  apply lookup_insert_eq.
Qed.

End OpenRuns.

(** [pdata[i]] is the list lookup at a non-negative index. *)
Lemma pdata_at_lookup {A} (l : list A) (i : Z) :
  0 <= i -> pdata_at l i = l !! Z.to_nat i.
Proof.
  revert i. induction l as [|x l IH]; intros i Hi; simpl; [reflexivity|].
  destruct (Z.eqb_spec i 0) as [->|Hne]; [reflexivity|].
  rewrite IH by lia.
  replace (Z.to_nat i) with (S (Z.to_nat (i - 1))) by lia. reflexivity.
Qed.

(** For an array of fewer than 2^32 elements, [pdata[len - 1]] is the
    last element; for the empty array it is past the end. *)
Lemma pdata_at_last {A} (l : list A) :
  Z.of_nat (length l) < 2 ^ 32 ->
  pdata_at l (guint_pred (Z.of_nat (length l))) = last l.
Proof.
  intros Hlen. destruct l as [|x l'] eqn:Hl; [reflexivity|].
  rewrite <- Hl in *. unfold guint_pred.
  assert (Hpos : (0 < length l)%nat) by (subst; simpl; lia).
  rewrite Z.mod_small by lia.
  rewrite pdata_at_lookup by lia. rewrite last_lookup.
  f_equal. lia.
Qed.

Section LevelTheorems.
Context (E : lib).

(** Claim C6: for every successfully built pyramid, the installed level
    sequence is ordered by non-increasing image width: for indices
    [i < j], the width of level [i] is at least the width of level [j]. *)
Theorem optra_open_levels_sorted (tl : tifflike) (s0 s' : ost) (ls : list level) :
  optra_open E tl s0 = (Ok tt, s') ->
  levels (osr s') = Some ls ->
  forall (i j : nat) (a b : level),
    (i < j)%nat -> ls !! i = Some a -> ls !! j = Some b ->
    image_w b <= image_w a.
Proof.
  intros H Hls i j a b Hij Ha Hb.
  destruct (optra_open_ok_inv E tl s0 s' H)
    as (s1 & s2 & top & Hw & _ & _ & _ & Hlev & _ & _).
  rewrite Hlev in Hls. injection Hls as <-.
  eapply sorted_lookup_wider; [apply g_ptr_array_sort_sorted | exact Hij | exact Ha | exact Hb].
Qed.

(** Claim C1: after sorting the levels by non-increasing width,
    [optra_open] feeds the fingerprint and the standard properties with
    the directory of the level at the tail of the sorted sequence,
    together with directory 0; that level has the smallest width of all
    levels.  (The file has fewer than 2^32 directories, as [tdir_t]
    directory numbers require.) *)
Theorem optra_open_hash_uses_tail_level (tl : tifflike) (s0 s' : ost) :
  Z.of_nat (length tl) < 2 ^ 32 ->
  optra_open E tl s0 = (Ok tt, s') ->
  exists ls top,
    levels (osr s') = Some ls /\ last ls = Some top /\
    quickhash s' = Some (lv_dir top, 0) /\
    forall l, l ∈ ls -> image_w top <= image_w l.
Proof.
  intros Hdirs H.
  destruct (optra_open_ok_inv E tl s0 s' H)
    as (s1 & s2 & top & Hw & _ & Hla1 & Htop & Hlev & Hq & _).
  set (sorted := g_ptr_array_sort (default [] (level_array s2)) width_compare) in *.
  destruct (walk_length E tl 0 s1 s2 (Ok tt) [] Hw Hla1) as (la2 & Hla2 & Hlen).
  assert (Hslen : length sorted = length la2).
  { unfold sorted. rewrite Hla2. simpl. apply Permutation_length, g_ptr_array_sort_perm. }
  simpl in Hlen.
  assert (Hb : Z.of_nat (length sorted) <= Z.of_nat (length tl)) by lia.
  rewrite pdata_at_last in Htop by lia.
  exists sorted, top. split; [exact Hlev|]. split; [exact Htop|]. split; [exact Hq|].
  intros l Hl. apply list_elem_of_lookup in Hl as [k Hk].
  rewrite last_lookup in Htop.
  assert (Hk_lt : (k < length sorted)%nat) by (apply lookup_lt_Some in Hk; exact Hk).
  destruct (decide (k = pred (length sorted))) as [->|Hne].
  - rewrite Htop in Hk. injection Hk as ->. lia.
  - eapply sorted_lookup_wider; [apply g_ptr_array_sort_sorted | | exact Hk | exact Htop]. lia.
Qed.

(** Claim C3 (amended): after a successful run, the associated image
    ["thumbnail"] is the last tiled, reduced-resolution directory other
    than directory 0 (with a readable subfile type) whose width and
    height both exceed 500 px, or directory 0 when there is none. *)
Theorem optra_open_thumbnail_last_candidate (tl : tifflike) (s0 s' : ost) :
  optra_open E tl s0 = (Ok tt, s') ->
  associated_images (osr s') !! "thumbnail"%string = Some (last_thumbnail 0 tl 0).
Proof.
  intros H.
  destruct (optra_open_ok_inv E tl s0 s' H)
    as (s1 & s2 & top & Hw & Htn & _ & _ & _ & _ & Hth).
  rewrite Hth, (walk_tn_dir E tl 0 s1 s2 Hw), Htn. reflexivity.
Qed.

End LevelTheorems.

(** ** The failure path of [optra_open] *)

Ltac solve_inv :=
  match goal with
  | Hi : open_inv _ _ _ |- _ =>
      let Hc := fresh "Hc" in let Ht := fresh "Ht" in let la := fresh "la" in
      let Hla := fresh "Hla" in let Hl := fresh "Hl" in let Hg := fresh "Hg" in
      let H1 := fresh "H1" in let H2 := fresh "H2" in let H3 := fresh "H3" in
      let H4 := fresh "H4" in
      destruct Hi as (Hc & Ht & (la & Hla & Hl & Hg) & H1 & H2 & H3 & H4);
      simpl in Hc, Ht, Hla, Hl, Hg, H1, H2, H3, H4;
      unfold open_inv; simpl; rewrite ?Hla; simpl;
      repeat split; try assumption;
      try (eexists; split; [reflexivity|]);
      rewrite ?length_app, ?g_ptr_array_sort_length; simpl; lia
  end.

Section FailPath.
Context (E : lib).

Lemma walk_body_inv (r0 : resources) (o0 : openslide) (dir : Z) (d : tdir)
    (s s' : ost) (o : outcome unit) :
  open_inv r0 o0 s -> walk_body E dir d s = (o, s') -> open_inv r0 o0 s'.
Proof.
  intros Hi H. unfold_m. crunch; solve_inv.
Qed.

Lemma walk_inv (r0 : resources) (o0 : openslide) (ds : list tdir) (dir : Z)
    (s s' : ost) (o : outcome unit) :
  open_inv r0 o0 s -> walk E dir ds s = (o, s') -> open_inv r0 o0 s'.
Proof.
  revert dir s. induction ds as [|d ds IH]; intros dir s Hi H; simpl in *.
  - unfold ret in H. injection H as _ <-. exact Hi.
  - unfold bind, modify in H.
    assert (Hi' : open_inv r0 o0 (set_cur_dir dir s)) by solve_inv.
    destruct (walk_body E dir d (set_cur_dir dir s)) as [[[]|e|] s1] eqn:Hb;
      pose proof (walk_body_inv _ _ _ _ _ _ _ Hi' Hb) as Hi1.
    + exact (IH _ _ Hi1 H).
    + injection H as _ <-. exact Hi1.
    + injection H as _ <-. exact Hi1.
Qed.

Lemma optra_open_body_fail_inv (r0 : resources) (o0 : openslide) (tl : tifflike)
    (s s' : ost) (e : err) :
  open_inv r0 o0 s -> tiff_held s = false ->
  optra_open_body E tl s = (Fail e, s') -> open_inv r0 o0 s'.
Proof.
  intros Hi Hheld H.
  destruct Hi as (Hc & Ht & Hrest). rewrite Hheld in Ht.
  assert (Hi : open_inv r0 o0 (set_cur_dir 0 (set_tiff_held true
                 (set_res (res_tiffs_out S (res s)) s)))).
  { destruct Hrest as ((la & Hla & Hl & Hg) & H1 & H2 & H3 & H4).
    unfold open_inv; simpl. rewrite Hla. repeat split; try assumption; try lia.
    exists la. repeat split; assumption. }
  assert (Hi0 : open_inv r0 o0 s) by (unfold open_inv; rewrite Hheld; auto).
  clear Hc Ht Hrest.
  unfold optra_open_body, tiff_add_associated_image, modify_res, modify_osr,
    bind, modify, gets, ret, fail, undef in H.
  crunch; try assumption.
  all: try match goal with
  | Hw : walk E _ _ _ = (_, ?sb) |- _ =>
      assert (open_inv r0 o0 sb) by (eapply walk_inv; [|exact Hw]; solve_inv)
  end.
  all: solve_inv.
Qed.

Lemma free_levels_spec (la : list level) (r : resources) :
  free_levels la r =
  mkRes (tiffcaches r) (tiffs_out r) (live_levels r - length la) (live_grids r - length la).
Proof.
  unfold free_levels. revert r.
  induction la as [|x la IH]; intros r; simpl.
  - destruct r; simpl; f_equal; lia.
  - rewrite IH. simpl. f_equal; lia.
Qed.

(** Claim C2 (amended): whenever [optra_open] fails, every level and
    grid built so far, the TIFF handle and the handle cache are released
    (the resources are exactly those before the call), and no levels,
    level count, private data or ops are installed on the slide handle.
    The properties and associated images written before the failure are
    not rolled back. *)
Theorem optra_open_fail_releases (tl : tifflike) (s0 s' : ost) (e : err) :
  optra_open E tl s0 = (Fail e, s') ->
  res s' = res s0 /\ level_array s' = None /\ tiff_held s' = false /\
  levels (osr s') = levels (osr s0) /\ level_count (osr s') = level_count (osr s0) /\
  data_set (osr s') = data_set (osr s0) /\ ops_set (osr s') = ops_set (osr s0).
Proof.
  intros H. unfold optra_open in H.
  set (s1 := set_level_array (Some [])
               (set_tiff_held false (set_res (res_tiffcaches S (res s0)) s0))) in H.
  assert (Hi1 : open_inv (res s0) (osr s0) s1).
  { unfold open_inv, s1; simpl. repeat split; try lia.
    exists []. simpl. repeat split; lia. }
  destruct (optra_open_body E tl s1) as [[[]|e'|] s2] eqn:Hb; try discriminate.
  injection H as <- <-.
  pose proof (optra_open_body_fail_inv _ _ _ _ _ _ Hi1 eq_refl Hb)
    as (Hc & Ht & (la & Hla & Hl & Hg) & H1 & H2 & H3 & H4).
  unfold fail_cleanup; simpl. rewrite Hla, free_levels_spec.
  repeat split; try assumption.
  destruct (res s0) as [c0 t0 l0 g0] eqn:Hr0; simpl in *.
  destruct (tiff_held s2); simpl in *;
    unfold res_tiffcaches, res_tiffs_out; simpl; f_equal; lia.
Qed.

End FailPath.

(** ** XML attributes to properties *)

Lemma optra_key_inj (m n : string) : optra_key m = optra_key n -> m = n.
Proof. unfold optra_key. simpl. intros H. injection H as H. exact H. Qed.

Lemma get_no_ns_prop_unique (attrs : list xmlAttr) (a : xmlAttr) :
  NoDup (no_ns_names attrs) -> a ∈ attrs -> attr_ns a = None ->
  get_no_ns_prop attrs (attr_name a) = Some (attr_value a).
Proof.
  unfold no_ns_names. induction attrs as [|b attrs IH]; intros Hnd Hin Hns.
  - apply elem_of_nil in Hin. contradiction.
  - simpl. apply elem_of_cons in Hin.
    destruct (attr_ns b) as [nsb|] eqn:Hb.
    + destruct Hin as [->|Hin]; [congruence|].
      apply IH; [|assumption|assumption].
      simpl in Hnd. unfold no_ns in Hnd at 1. rewrite Hb in Hnd. exact Hnd.
    + simpl in Hnd. unfold no_ns in Hnd at 1. rewrite Hb in Hnd.
      simpl in Hnd. apply NoDup_cons in Hnd as [Hnotin Hnd].
      destruct Hin as [->|Hin].
      * rewrite String.eqb_refl. reflexivity.
      * destruct (String.eqb_spec (attr_name b) (attr_name a)) as [Heq|Hne].
        -- exfalso. apply Hnotin. rewrite Heq.
           apply list_elem_of_fmap_2. apply list_elem_of_In, filter_In.
           split; [apply list_elem_of_In; exact Hin | unfold no_ns; rewrite Hns; reflexivity].
        -- apply IH; assumption.
Qed.

Lemma copy_attrs_other (sc : xmlNode) (attrs : list xmlAttr)
    (props : gmap string string) (n : string) :
  (forall b, b ∈ attrs -> attr_name b <> n) ->
  copy_attrs sc attrs props !! optra_key n = props !! optra_key n.
Proof.
  revert props. induction attrs as [|b attrs IH]; intros props Hall; simpl; [reflexivity|].
  rewrite IH by (intros b' Hb'; apply Hall; apply elem_of_cons; right; exact Hb').
  assert (Hne : optra_key (attr_name b) <> optra_key n).
  { intros Heq. apply optra_key_inj in Heq. apply (Hall b); [apply elem_of_cons; left|]; auto. }
  destruct (xmlGetNoNsProp sc (attr_name b)) as [v|]; [|reflexivity].
  destruct (String.eqb v ""); [reflexivity|].
  apply lookup_insert_ne. exact Hne.
Qed.

Lemma copy_attrs_found (sc : xmlNode) (attrs : list xmlAttr)
    (props : gmap string string) (n v : string) :
  (exists b, b ∈ attrs /\ attr_name b = n) ->
  xmlGetNoNsProp sc n = Some v -> v <> ""%string ->
  copy_attrs sc attrs props !! optra_key n = Some v.
Proof.
  revert props. induction attrs as [|b attrs IH]; intros props Hex Hget Hv.
  - destruct Hex as (b & Hb & _). apply elem_of_nil in Hb. contradiction.
  - simpl.
    destruct (existsb (fun b' => String.eqb (attr_name b') n) attrs) eqn:Hr.
    + apply existsb_exists in Hr as (b' & Hb' & Hn').
      apply IH; [|assumption|assumption].
      exists b'. split; [apply list_elem_of_In; exact Hb'|].
      apply String.eqb_eq. exact Hn'.
    + destruct Hex as (b0 & Hb0 & Hn0). apply elem_of_cons in Hb0.
      destruct Hb0 as [->|Hb0].
      * rewrite copy_attrs_other.
        -- rewrite Hn0, Hget.
           destruct (String.eqb_spec v "") as [Hempty|_]; [contradiction|].
           apply lookup_insert_eq.
        -- intros b' Hb' Hn'.
           assert (Hf : existsb (fun b' => String.eqb (attr_name b') n) attrs = true).
           { apply existsb_exists. exists b'.
             split; [apply list_elem_of_In; exact Hb' | apply String.eqb_eq; exact Hn']. }
           congruence.
      * exfalso.
        assert (Hf : existsb (fun b' => String.eqb (attr_name b') n) attrs = true).
        { apply existsb_exists. exists b0.
          split; [apply list_elem_of_In; exact Hb0 | apply String.eqb_eq; exact Hn0]. }
        congruence.
Qed.

Lemma duplicate_prop_other (conv : string -> option string) (src dst k : string)
    (p : gmap string string) :
  k <> dst -> duplicate_prop conv src dst p !! k = p !! k.
Proof.
  intros Hne. unfold duplicate_prop.
  destruct (p !! src); [|reflexivity].
  destruct (conv s); [|reflexivity].
  apply lookup_insert_ne. congruence.
Qed.

Section XmlTheorems.
Context (E : lib).

(** Claim C4: the copy loop meant to copy every attribute (line 184)
    does so for the attributes in no namespace: for every attribute of
    the [ScanInfo] root element that is in no namespace and has a
    non-empty value,
    [parse_initial_xml] stores the property ["optra." ++ name] with
    exactly the attribute's value (attribute names being distinct, as
    well-formed XML requires). *)
Theorem parse_initial_xml_copies_attributes (xml : string) (root : xmlNode)
    (props p' : gmap string string) (a : xmlAttr) :
  xml_parse E xml = Some root ->
  parse_initial_xml E xml props = Some p' ->
  NoDup (no_ns_names (node_properties root)) ->
  a ∈ node_properties root -> attr_ns a = None -> attr_value a <> ""%string ->
  p' !! String.append "optra." (attr_name a) = Some (attr_value a).
Proof.
  intros Hparse Hp Hnd Hin Hns Hv.
  unfold parse_initial_xml in Hp. rewrite Hparse in Hp.
  unfold get_initial_root_xml in Hp.
  destruct (String.eqb (node_name root) XML_ROOT_TAG); [|discriminate].
  injection Hp as <-.
  change (String.append "optra." (attr_name a)) with (optra_key (attr_name a)).
  rewrite !duplicate_prop_other by (unfold optra_key; simpl; discriminate).
  apply copy_attrs_found; [eauto | | exact Hv].
  unfold xmlGetNoNsProp. apply get_no_ns_prop_unique; assumption.
Qed.

End XmlTheorems.

(** ** [optra_detect] *)

Section DetectTheorems.
Context (E : lib).

(** Claim C5: [optra_detect] fails exactly when there is no container
    description, directory 0 is not tiled, no XML packet can be read
    from directory 0, the packet does not contain ["ScanInfo"], the
    packet does not parse, or the root element is not named
    ["ScanInfo"]; otherwise it succeeds ([err + unit] has no third
    case).  It returns a value and has no state to mutate. *)
Theorem optra_detect_fails_iff (tl : option tifflike) :
  (exists e, optra_detect E tl = inl e) <->
  tl = None \/
  exists t, tl = Some t /\
    (tifflike_is_tiled t 0 = false \/ tifflike_get_xmlpacket t 0 = None \/
     exists xml, tifflike_get_xmlpacket t 0 = Some xml /\
       (strstr xml XML_ROOT_TAG = false \/ xml_parse E xml = None \/
        exists root, xml_parse E xml = Some root /\ node_name root <> XML_ROOT_TAG)).
Proof.
  unfold optra_detect, get_initial_root_xml. split.
  - intros [e He]. destruct tl as [t|]; [right; exists t; split; [reflexivity|] | left; reflexivity].
    destruct (tifflike_is_tiled t 0) eqn:Ht; [|left; reflexivity]. right.
    destruct (tifflike_get_xmlpacket t 0) as [xml|] eqn:Hx; [|left; reflexivity]. right.
    exists xml. split; [reflexivity|].
    destruct (strstr xml XML_ROOT_TAG) eqn:Hs; [|left; reflexivity]. right.
    destruct (xml_parse E xml) as [root|] eqn:Hp; [|left; reflexivity]. right.
    exists root. split; [reflexivity|].
    simpl in He. destruct (String.eqb_spec (node_name root) XML_ROOT_TAG); [discriminate|assumption].
  - intros [->|(t & -> & Hc)]; [eexists; reflexivity|].
    destruct Hc as [Ht|[Hx|(xml & Hx & Hc)]].
    + rewrite Ht. eexists; reflexivity.
    + destruct (tifflike_is_tiled t 0); simpl; rewrite ?Hx; eexists; reflexivity.
    + destruct (tifflike_is_tiled t 0); simpl; [|eexists; reflexivity].
      rewrite Hx. destruct Hc as [Hs|[Hp|(root & Hp & Hn)]].
      * rewrite Hs. eexists; reflexivity.
      * destruct (strstr xml XML_ROOT_TAG); simpl; rewrite ?Hp; eexists; reflexivity.
      * destruct (strstr xml XML_ROOT_TAG); simpl; [|eexists; reflexivity].
        rewrite Hp. destruct (String.eqb_spec (node_name root) XML_ROOT_TAG);
          [contradiction | eexists; reflexivity].
Qed.

(** Claim C9: [optra_detect] is deterministic: two calls on the same
    container description give the same result, so the same
    accept/reject answer and, on reject, the same error. *)
Theorem optra_detect_deterministic (tl : option tifflike) (r1 r2 : err + unit) :
  optra_detect E tl = r1 -> optra_detect E tl = r2 -> r1 = r2.
Proof.
  intros H1 H2. rewrite <- H1, <- H2. reflexivity.
Qed.

End DetectTheorems.

(** ** [read_tile] *)

Section ReadTileTheorems.
Context (tiff_read_tile : level -> Z -> Z -> option buffer).
Context (tiff_clip_tile : level -> Z -> Z -> buffer -> option buffer).

(** Claim C7: on a cache miss where the decode or the clip fails,
    [read_tile] returns [false], the [tile_w * tile_h * 4] bytes it
    allocated are freed (the allocated byte count is back to its value
    before the call), nothing is inserted into the cache, no cache
    reference is left held and nothing is painted. *)
Theorem read_tile_failure_frees (lid : Z) (l : level) (col row : Z) (t : tstate) :
  cache t !! (lid, col, row) = None ->
  (tiff_read_tile l col row = None \/
   exists b, tiff_read_tile l col row = Some b /\ tiff_clip_tile l col row b = None) ->
  fst (read_tile tiff_read_tile tiff_clip_tile lid l col row t) = false /\
  let t' := snd (read_tile tiff_read_tile tiff_clip_tile lid l col row t) in
  cache t' = cache t /\ slice_bytes t' = slice_bytes t /\
  entry_refs t' = entry_refs t /\ canvas t' = canvas t.
Proof.
  intros Hmiss Hfail. unfold read_tile. rewrite Hmiss.
  destruct Hfail as [Hd|(b & Hd & Hc)]; rewrite Hd; [|rewrite Hc]; simpl;
    repeat split; lia.
Qed.

Lemma read_tile_ok_cached (lid : Z) (l : level) (col row : Z) (t : tstate) :
  fst (read_tile tiff_read_tile tiff_clip_tile lid l col row t) = true ->
  exists b,
    let t1 := snd (read_tile tiff_read_tile tiff_clip_tile lid l col row t) in
    cache t1 !! (lid, col, row) = Some b /\ canvas t1 = canvas t ++ [b] /\
    decodes t1 = (decodes t + if cache t !! (lid, col, row) then 0 else 1)%nat.
Proof.
  unfold read_tile. destruct (cache t !! (lid, col, row)) as [b|] eqn:Hc.
  - intros _. exists b. simpl. rewrite Hc. repeat split. lia.
  - destruct (tiff_read_tile l col row) as [b|]; [|discriminate].
    destruct (tiff_clip_tile l col row b) as [b'|]; [|discriminate].
    intros _. exists b'. simpl. repeat split; [apply lookup_insert_eq | lia].
Qed.

(** Claim C8 (amended): if the first of two reads of the same
    (level, column, row) succeeds, the second succeeds too and is
    served from the cache; both paint the same pixel buffer, and the
    pair performs exactly one tile decode when the tile was not cached
    before the first read, none when it was. *)
Theorem read_tile_twice_one_decode (lid : Z) (l : level) (col row : Z) (t : tstate) :
  fst (read_tile tiff_read_tile tiff_clip_tile lid l col row t) = true ->
  let '(ok1, ok2, t2) := read_twice tiff_read_tile tiff_clip_tile lid l col row t in
  ok1 = true /\ ok2 = true /\
  (exists b, canvas t2 = canvas t ++ [b; b]) /\
  decodes t2 = (decodes t + if cache t !! (lid, col, row) then 0 else 1)%nat.
Proof.
  intros Hok. destruct (read_tile_ok_cached lid l col row t Hok) as (b & Hb & Hcv & Hdec).
  unfold read_twice.
  destruct (read_tile tiff_read_tile tiff_clip_tile lid l col row t) as [ok1 t1] eqn:H1.
  simpl in Hok, Hb, Hcv, Hdec. subst ok1.
  unfold read_tile at 1. rewrite Hb. simpl.
  repeat split; [|lia]. exists b. rewrite Hcv, <- app_assoc. reflexivity.
Qed.

End ReadTileTheorems.


(* ================================================================== *)
(** * Runs on the sample inputs *)

(** The sample container opens: theorem C1 applies to it. *)
Lemma optra_open_hash_uses_tail_level_witness :
  Z.of_nat (length sample_tl) < 2 ^ 32 /\
  optra_open sample_lib sample_tl sample_st =
    (Ok tt, snd (optra_open sample_lib sample_tl sample_st)) /\
  exists ls top,
    levels (osr (snd (optra_open sample_lib sample_tl sample_st))) = Some ls /\
    last ls = Some top /\
    quickhash (snd (optra_open sample_lib sample_tl sample_st)) = Some (lv_dir top, 0) /\
    forall l, l ∈ ls -> image_w top <= image_w l.
Proof.
  assert (Hd : Z.of_nat (length sample_tl) < 2 ^ 32) by (simpl; lia).
  assert (Hr : optra_open sample_lib sample_tl sample_st =
                 (Ok tt, snd (optra_open sample_lib sample_tl sample_st)))
    by (vm_compute; reflexivity).
  split; [exact Hd|]. split; [exact Hr|].
  exact (optra_open_hash_uses_tail_level sample_lib sample_tl sample_st _ Hd Hr).
Defined.

(** A container whose reduced image uses an unconfigured compression:
    the open fails, and theorem C2 applies. *)
Lemma optra_open_fail_releases_witness :
  optra_open sample_lib sample_tl_badcodec sample_st =
    (Fail (E_UnsupportedCompression 9),
     snd (optra_open sample_lib sample_tl_badcodec sample_st)) /\
  let s' := snd (optra_open sample_lib sample_tl_badcodec sample_st) in
  res s' = res sample_st /\ level_array s' = None /\ tiff_held s' = false /\
  levels (osr s') = levels (osr sample_st) /\
  level_count (osr s') = level_count (osr sample_st) /\
  data_set (osr s') = data_set (osr sample_st) /\
  ops_set (osr s') = ops_set (osr sample_st).
Proof.
  assert (Hr : optra_open sample_lib sample_tl_badcodec sample_st =
                 (Fail (E_UnsupportedCompression 9),
                  snd (optra_open sample_lib sample_tl_badcodec sample_st)))
    by (vm_compute; reflexivity).
  split; [exact Hr|].
  exact (optra_open_fail_releases sample_lib sample_tl_badcodec sample_st _ _ Hr).
Defined.

(** The same failed open leaves the slide handle changed: the
    ["optra.*"] properties parsed from the XML packet and the label image
    registered before the unsupported compression was met stay on it. *)
Lemma optra_open_fail_keeps_properties :
  let s' := snd (optra_open sample_lib sample_tl_badcodec sample_st) in
  fst (optra_open sample_lib sample_tl_badcodec sample_st) =
    Fail (E_UnsupportedCompression 9) /\
  properties (osr sample_st) !! "optra.Magnification"%string = None /\
  properties (osr s') !! "optra.Magnification"%string = Some "20"%string /\
  associated_images (osr sample_st) !! "label"%string = None /\
  associated_images (osr s') !! "label"%string = Some 1.
Proof. vm_compute. repeat split. Qed.

(** The sample container: the reduced directories 2 (600x600) and
    5 (800x800) qualify, and the thumbnail is directory 5. *)
Lemma optra_open_thumbnail_last_candidate_witness :
  optra_open sample_lib sample_tl sample_st =
    (Ok tt, snd (optra_open sample_lib sample_tl sample_st)) /\
  associated_images (osr (snd (optra_open sample_lib sample_tl sample_st)))
    !! "thumbnail"%string = Some (last_thumbnail 0 sample_tl 0) /\
  last_thumbnail 0 sample_tl 0 = 5.
Proof.
  assert (Hr : optra_open sample_lib sample_tl sample_st =
                 (Ok tt, snd (optra_open sample_lib sample_tl sample_st)))
    by (vm_compute; reflexivity).
  split; [exact Hr|]. split; [|vm_compute; reflexivity].
  exact (optra_open_thumbnail_last_candidate sample_lib sample_tl sample_st _ Hr).
Defined.

(** A reduced 600x600 directory that is not tiled is skipped by the
    walk: the open succeeds and the thumbnail stays directory 0. *)
Lemma optra_open_thumbnail_untiled_skipped :
  let s' := snd (optra_open sample_lib sample_tl_untiled sample_st) in
  fst (optra_open sample_lib sample_tl_untiled sample_st) = Ok tt /\
  option_map td_subfiletype (sample_tl_untiled !! 1%nat) = Some (Some 1) /\
  option_map td_width (sample_tl_untiled !! 1%nat) = Some (Some 600) /\
  option_map td_height (sample_tl_untiled !! 1%nat) = Some (Some 600) /\
  associated_images (osr s') !! "thumbnail"%string = Some 0.
Proof. vm_compute. repeat split. Qed.

(** The sample packet: theorem C4 gives ["optra.Magnification"]. *)
Lemma parse_initial_xml_copies_attributes_witness :
  xml_parse sample_lib sample_xml = Some sample_root /\
  parse_initial_xml sample_lib sample_xml ∅ =
    Some (default ∅ (parse_initial_xml sample_lib sample_xml ∅)) /\
  NoDup (no_ns_names (node_properties sample_root)) /\
  mkAttr None "Magnification" "20" ∈ node_properties sample_root /\
  default ∅ (parse_initial_xml sample_lib sample_xml ∅)
    !! String.append "optra." "Magnification" = Some "20"%string.
Proof.
  assert (H1 : xml_parse sample_lib sample_xml = Some sample_root) by reflexivity.
  assert (H2 : parse_initial_xml sample_lib sample_xml ∅ =
                 Some (default ∅ (parse_initial_xml sample_lib sample_xml ∅)))
    by (vm_compute; reflexivity).
  assert (H3 : NoDup (no_ns_names (node_properties sample_root)))
    by (apply (bool_decide_unpack _); vm_compute; reflexivity).
  assert (H4 : mkAttr None "Magnification" "20" ∈ node_properties sample_root)
    by (apply elem_of_cons; left; reflexivity).
  split; [exact H1|]. split; [exact H2|]. split; [exact H3|]. split; [exact H4|].
  exact (parse_initial_xml_copies_attributes sample_lib sample_xml sample_root ∅ _ _
           H1 H2 H3 H4 eq_refl ltac:(discriminate)).
Defined.

(** The attribute [v:Scanner='X'] of the sample root is in a namespace:
    it has a non-empty value but no ["optra.Scanner"] property is made. *)
Lemma parse_initial_xml_skips_namespaced :
  xml_parse sample_lib sample_xml = Some sample_root /\
  mkAttr (Some "urn:v"%string) "Scanner" "X" ∈ node_properties sample_root /\
  exists p, parse_initial_xml sample_lib sample_xml ∅ = Some p /\
    p !! "optra.Scanner"%string = None.
Proof.
  split; [reflexivity|]. split.
  - apply elem_of_cons; right. apply elem_of_cons; left. reflexivity.
  - eexists. split; [vm_compute; reflexivity|]. vm_compute. reflexivity.
Qed.

(** The sample pyramid: its first two levels are in width order. *)
Lemma optra_open_levels_sorted_witness :
  let s' := snd (optra_open sample_lib sample_tl sample_st) in
  let ls := default [] (levels (osr s')) in
  optra_open sample_lib sample_tl sample_st = (Ok tt, s') /\
  levels (osr s') = Some ls /\
  ls !! 0%nat = Some (default sample_level (ls !! 0%nat)) /\
  ls !! 1%nat = Some (default sample_level (ls !! 1%nat)) /\
  image_w (default sample_level (ls !! 1%nat)) <=
    image_w (default sample_level (ls !! 0%nat)).
Proof.
  intros s' ls.
  assert (Hr : optra_open sample_lib sample_tl sample_st = (Ok tt, s'))
    by (vm_compute; reflexivity).
  assert (Hl : levels (osr s') = Some ls) by (vm_compute; reflexivity).
  assert (Ha : ls !! 0%nat = Some (default sample_level (ls !! 0%nat)))
    by (vm_compute; reflexivity).
  assert (Hb : ls !! 1%nat = Some (default sample_level (ls !! 1%nat)))
    by (vm_compute; reflexivity).
  split; [exact Hr|]. split; [exact Hl|]. split; [exact Ha|]. split; [exact Hb|].
  exact (optra_open_levels_sorted sample_lib sample_tl sample_st s' ls Hr Hl
           0 1 _ _ ltac:(lia) Ha Hb).
Defined.

(** A failing decoder on an empty cache: theorem C7 applies. *)
Lemma read_tile_failure_frees_witness :
  cache sample_tstate !! (0, 0, 0) = None /\
  fst (read_tile sample_decode_fail sample_clip 0 sample_level 0 0 sample_tstate) = false /\
  let t' := snd (read_tile sample_decode_fail sample_clip 0 sample_level 0 0 sample_tstate) in
  cache t' = cache sample_tstate /\ slice_bytes t' = slice_bytes sample_tstate /\
  entry_refs t' = entry_refs sample_tstate /\ canvas t' = canvas sample_tstate.
Proof.
  assert (Hm : cache sample_tstate !! (0, 0, 0) = None) by reflexivity.
  split; [exact Hm|].
  exact (read_tile_failure_frees sample_decode_fail sample_clip 0 sample_level 0 0
           sample_tstate Hm (or_introl eq_refl)).
Defined.

(** Two reads of an uncached tile: theorem C8 applies, with one decode. *)
Lemma read_tile_twice_one_decode_witness :
  fst (read_tile sample_decode sample_clip 0 sample_level 0 0 sample_tstate) = true /\
  let '(ok1, ok2, t2) := read_twice sample_decode sample_clip 0 sample_level 0 0 sample_tstate in
  ok1 = true /\ ok2 = true /\
  (exists b, canvas t2 = canvas sample_tstate ++ [b; b]) /\
  decodes t2 = (decodes sample_tstate +
                if cache sample_tstate !! (0%Z, 0%Z, 0%Z) then 0 else 1)%nat.
Proof.
  assert (Hok : fst (read_tile sample_decode sample_clip 0 sample_level 0 0 sample_tstate) = true)
    by reflexivity.
  split; [exact Hok|].
  exact (read_tile_twice_one_decode sample_decode sample_clip 0 sample_level 0 0
           sample_tstate Hok).
Defined.

(** Two reads of a tile that is already cached paint the same pixels,
    both from the cache, and decode nothing. *)
Lemma read_tile_twice_cached_no_decode :
  read_twice sample_decode sample_clip 0 sample_level 0 0 sample_tstate_cached =
    (true, true, mkT {[(0, 0, 0) := [7]]} 0 0 0 [[7]; [7]]) /\
  decodes (snd (read_twice sample_decode sample_clip 0 sample_level 0 0
                  sample_tstate_cached)) = decodes sample_tstate_cached.
Proof. split; vm_compute; reflexivity. Qed.

(** Detection of the sample container, run twice: theorem C9 applies. *)
Lemma optra_detect_deterministic_witness :
  optra_detect sample_lib (Some sample_tl) = inr tt /\ inr tt = (inr tt : err + unit).
Proof.
  assert (H : optra_detect sample_lib (Some sample_tl) = inr tt) by (vm_compute; reflexivity).
  split; [exact H|].
  exact (optra_detect_deterministic sample_lib (Some sample_tl) _ _ H H).
Defined.


(** * Further properties of the driver and the tables *)

(** [width_compare] is a valid [GCompareFunc] for ordering by width:
    antisymmetric, [0] exactly for equal widths, negative exactly when
    the first level is wider, and always one of [-1], [0], [1]. *)
Theorem width_compare_total_order (a b : level) :
  width_compare a b = - width_compare b a /\
  (width_compare a b = 0 <-> image_w a = image_w b) /\
  (width_compare a b < 0 <-> image_w b < image_w a) /\
  (width_compare a b = -1 \/ width_compare a b = 0 \/ width_compare a b = 1).
Proof.
  unfold width_compare.
  destruct (Z.gtb_spec (image_w a) (image_w b));
    destruct (Z.gtb_spec (image_w b) (image_w a));
    destruct (Z.eqb_spec (image_w a) (image_w b));
    destruct (Z.eqb_spec (image_w b) (image_w a));
    repeat split; intros; try lia.
Qed.

Section OpenInstall.
Context (E : lib).

Lemma optra_open_ok_installed (tl : tifflike) (s0 s' : ost) :
  optra_open E tl s0 = (Ok tt, s') ->
  exists ls,
    levels (osr s') = Some ls /\ ls <> [] /\
    level_count (osr s') = Z.of_nat (length ls) /\
    data_set (osr s') = true /\ ops_set (osr s') = true /\
    level_array s' = None /\ tiff_held s' = false.
Proof.
  intros H. unfold_open. crunch.
  match goal with Hp : pdata_at ?l _ = Some _ |- _ =>
    exists l; repeat split; try reflexivity;
    intros Hn; rewrite Hn in Hp; discriminate
  end.
Qed.


(** A successful open installs a non-empty level array whose
    [level_count] is its length, the private data and the ops, and it
    keeps neither the level array nor the TIFF handle. *)
Theorem optra_open_installs_levels (tl : tifflike) (s0 s' : ost) :
  optra_open E tl s0 = (Ok tt, s') ->
  exists ls,
    levels (osr s') = Some ls /\ ls <> [] /\
    level_count (osr s') = Z.of_nat (length ls) /\
    data_set (osr s') = true /\ ops_set (osr s') = true /\
    level_array s' = None /\ tiff_held s' = false.
Proof. exact (optra_open_ok_installed tl s0 s'). Qed.

End OpenInstall.

Section OpenResources.
Context (E : lib).

Lemma walk_body_tiff_held (dir : Z) (d : tdir) (s s' : ost) (o : outcome unit) :
  walk_body E dir d s = (o, s') -> tiff_held s' = tiff_held s.
Proof. intros H. unfold_m. crunch; reflexivity. Qed.

Lemma walk_tiff_held (ds : list tdir) (dir : Z) (s s' : ost) (o : outcome unit) :
  walk E dir ds s = (o, s') -> tiff_held s' = tiff_held s.
Proof.
  revert dir s. induction ds as [|d ds IH]; intros dir s H; simpl in *.
  - unfold ret in H. injection H as _ <-. reflexivity.
  - unfold bind, modify in H.
    destruct (walk_body E dir d (set_cur_dir dir s)) as [[[]|e|] s1] eqn:Hb;
      pose proof (walk_body_tiff_held _ _ _ _ _ Hb) as H1; simpl in H1.
    + rewrite (IH _ _ H). exact H1.
    + injection H as _ <-. exact H1.
    + injection H as _ <-. exact H1.
Qed.

Lemma optra_open_ok_resources_eq (tl : tifflike) (s0 s' : ost) :
  optra_open E tl s0 = (Ok tt, s') ->
  exists ls, levels (osr s') = Some ls /\
    res s' = mkRes (S (tiffcaches (res s0))) (tiffs_out (res s0))
               (live_levels (res s0) + length ls) (live_grids (res s0) + length ls).
Proof.
  intros H. unfold optra_open in H.
  set (s1 := set_level_array (Some [])
               (set_tiff_held false (set_res (res_tiffcaches S (res s0)) s0))) in H.
  assert (Hi1 : open_inv (res s0) (osr s0) s1).
  { unfold open_inv, s1; simpl. repeat split; try lia.
    exists []. simpl. repeat split; lia. }
  destruct (optra_open_body E tl s1) as [[[]|e'|] s2] eqn:Hb; try discriminate.
  injection H as <-.
  unfold optra_open_body, tiff_add_associated_image, modify_res, modify_osr,
    bind, modify, gets, ret, fail, undef in Hb.
  crunch.
  match goal with
  | Hw : walk E _ _ ?sa = (_, ?sb) |- _ =>
      assert (Hia : open_inv (res s0) (osr s0) sa);
      [| pose proof (walk_inv E _ _ _ _ _ _ _ Hia Hw) as Hib;
         pose proof (walk_tiff_held _ _ _ _ _ Hw) as Hh]
  end.
  { destruct Hi1 as (Hc & Ht & (la & Hla & Hl & Hg) & H1 & H2 & H3 & H4).
    unfold open_inv, s1 in *; simpl in *. repeat split; try assumption; try lia.
    exists la. repeat split; assumption. }
  simpl in Hh.
  destruct Hib as (Hc & Ht & (la & Hla & Hl & Hg) & H1 & H2 & H3 & H4).
  rewrite Hh in Ht. rewrite Hla. simpl.
  eexists. split; [reflexivity|].
  rewrite g_ptr_array_sort_length.
  destruct (res s0) as [rc rt rl rg]. simpl in *.
  unfold res_tiffs_out. f_equal; lia.
Qed.

Lemma destroy_levels_spec (ls : list level) (i : Z) (n : nat) (r : resources) :
  0 <= i -> (Z.to_nat i + n <= length ls)%nat ->
  destroy_levels ls i n r =
  Some (mkRes (tiffcaches r) (tiffs_out r) (live_levels r - n) (live_grids r - n)).
Proof.
  revert i r. induction n as [|n IH]; intros i r Hi Hn; simpl.
  - destruct r; simpl; f_equal; f_equal; lia.
  - rewrite pdata_at_lookup by lia.
    destruct (ls !! Z.to_nat i) eqn:Hl.
    + rewrite IH by lia. simpl. f_equal. f_equal; lia.
    + apply lookup_ge_None in Hl. lia.
Qed.

(** [destroy] on the handle a successful [optra_open] built succeeds
    and releases everything the open acquired: the resources are
    exactly those before the open. *)
Theorem optra_open_destroy_releases (tl : tifflike) (s0 s' : ost) :
  optra_open E tl s0 = (Ok tt, s') ->
  fst (destroy s') = Ok tt /\ res (snd (destroy s')) = res s0.
Proof.
  intros H.
  destruct (optra_open_ok_installed E tl s0 s' H) as (ls & Hls & _ & Hcnt & Hdata & _ & _ & _).
  destruct (optra_open_ok_resources_eq tl s0 s' H) as (ls' & Hls' & Hres).
  rewrite Hls in Hls'. injection Hls' as <-.
  unfold destroy. rewrite Hdata, Hls, Hcnt, Nat2Z.id. simpl.
  rewrite destroy_levels_spec by (simpl; lia).
  simpl. split; [reflexivity|]. rewrite Hres. simpl.
  destruct (res s0) as [c0 t0 l0 g0]. simpl. f_equal; lia.
Qed.


(** After a successful open, the handle cache is kept (owned by the
    private data), the TIFF handle is returned, and exactly one
    [struct level] and one grid are live per installed level. *)
Theorem optra_open_ok_resources (tl : tifflike) (s0 s' : ost) :
  optra_open E tl s0 = (Ok tt, s') ->
  exists ls, levels (osr s') = Some ls /\
    res s' = mkRes (S (tiffcaches (res s0))) (tiffs_out (res s0))
               (live_levels (res s0) + length ls) (live_grids (res s0) + length ls).
Proof. exact (optra_open_ok_resources_eq tl s0 s'). Qed.

End OpenResources.

Section OpenProvenance.
Context (E : lib).

Lemma tiff_level_init_dir (dir : Z) (d : tdir) (l : level) :
  tiff_level_init dir d = Some l -> lv_dir l = dir.
Proof.
  unfold tiff_level_init. intros H.
  destruct (td_width d), (td_height d), (td_tile_w d), (td_tile_h d); try discriminate.
  destruct (_ && _); [|discriminate]. injection H as <-. reflexivity.
Qed.

Lemma walk_body_level_dirs (dir : Z) (d : tdir) (s s' : ost) (la : list level) :
  walk_body E dir d s = (Ok tt, s') -> level_array s = Some la ->
  exists la', level_array s' = Some la' /\
    map lv_dir la' = map lv_dir la ++ (if level_source dir d then [dir] else []).
Proof.
  intros H Hla. unfold level_source. unfold_m. crunch; use_eqns; rewrite ?Hla; simpl;
    (eexists; split; [reflexivity|]); rewrite ?map_app, ?app_nil_r; try reflexivity;
    try congruence.
  all: match goal with
       | Hl : tiff_level_init _ _ = Some _ |- _ =>
           simpl; rewrite (tiff_level_init_dir _ _ _ Hl); reflexivity
       end.
Qed.

Lemma walk_level_dirs (ds : list tdir) (dir : Z) (s s' : ost) (la : list level) :
  walk E dir ds s = (Ok tt, s') -> level_array s = Some la ->
  exists la', level_array s' = Some la' /\
    map lv_dir la' = map lv_dir la ++ level_dirs dir ds.
Proof.
  revert dir s la. induction ds as [|d ds IH]; intros dir s la H Hla; simpl in *.
  - unfold ret in H. injection H as <-. exists la. rewrite app_nil_r. auto.
  - unfold bind, modify in H.
    destruct (walk_body E dir d (set_cur_dir dir s)) as [[[]|e|] s1] eqn:Hb;
      try discriminate.
    destruct (walk_body_level_dirs _ _ _ _ la Hb Hla) as (la1 & Hla1 & Hm1).
    destruct (IH _ _ _ H Hla1) as (la2 & Hla2 & Hm2).
    exists la2. split; [exact Hla2|]. rewrite Hm2, Hm1, app_assoc. reflexivity.
Qed.

Lemma level_dirs_bounds (ds : list tdir) (dir k : Z) :
  k ∈ level_dirs dir ds -> dir <= k < dir + Z.of_nat (length ds).
Proof.
  revert dir. induction ds as [|d ds IH]; intros dir Hk; simpl in *.
  - apply elem_of_nil in Hk. contradiction.
  - apply elem_of_app in Hk as [Hk|Hk].
    + destruct (level_source dir d); [|apply elem_of_nil in Hk; contradiction].
      apply list_elem_of_singleton in Hk. lia.
    + apply IH in Hk. lia.
Qed.

Lemma level_dirs_NoDup (ds : list tdir) (dir : Z) : NoDup (level_dirs dir ds).
Proof.
  revert dir. induction ds as [|d ds IH]; intros dir; simpl; [constructor|].
  destruct (level_source dir d); simpl; [|apply IH].
  constructor; [|apply IH].
  intros Hk. apply level_dirs_bounds in Hk. lia.
Qed.

Lemma level_dirs_lookup (ds : list tdir) (dir k : Z) :
  k ∈ level_dirs dir ds ->
  exists x, ds !! Z.to_nat (k - dir) = Some x /\ level_source k x = true.
Proof.
  revert dir. induction ds as [|d ds IH]; intros dir Hk; simpl in *.
  - apply elem_of_nil in Hk. contradiction.
  - apply elem_of_app in Hk as [Hk|Hk].
    + destruct (level_source dir d) eqn:Hs; [|apply elem_of_nil in Hk; contradiction].
      apply list_elem_of_singleton in Hk as ->.
      exists d. rewrite Z.sub_diag. simpl. auto.
    + pose proof (level_dirs_bounds _ _ _ Hk) as Hb.
      destruct (IH _ Hk) as (x & Hx & Hs). exists x. split; [|exact Hs].
      replace (Z.to_nat (k - dir)) with (S (Z.to_nat (k - (dir + 1)))) by lia.
      exact Hx.
Qed.

(** The installed levels are, up to order, one per level-source
    directory. *)
(** After a successful open, the installed levels correspond one to
    one (up to order) to the level-source directories: the tiled
    directories that are directory 0 or carry the reduced-image bit.
    So no two levels share a directory, and every level comes from such
    a directory of the container. *)
Theorem optra_open_levels_from_sources (tl : tifflike) (s0 s' : ost) (ls : list level) :
  optra_open E tl s0 = (Ok tt, s') ->
  levels (osr s') = Some ls ->
  Permutation (map lv_dir ls) (level_dirs 0 tl) /\ NoDup (map lv_dir ls) /\
  forall l, l ∈ ls ->
    exists x, tl !! Z.to_nat (lv_dir l) = Some x /\ 0 <= lv_dir l /\
      level_source (lv_dir l) x = true.
Proof.
  intros H Hls.
  destruct (optra_open_ok_inv E tl s0 s' H)
    as (s1 & s2 & top & Hw & _ & Hla1 & _ & Hlev & _ & _).
  rewrite Hlev in Hls. injection Hls as <-.
  destruct (walk_level_dirs _ _ _ _ _ Hw Hla1) as (la2 & Hla2 & Hm).
  rewrite Hla2. simpl in *.
  assert (Hp : Permutation (map lv_dir (g_ptr_array_sort la2 width_compare))
                 (level_dirs 0 tl)).
  { rewrite <- Hm. apply Permutation_map. apply g_ptr_array_sort_perm. }
  split; [exact Hp|]. split.
  - rewrite Hp. apply level_dirs_NoDup.
  - intros l Hl.
    assert (Hk : lv_dir l ∈ level_dirs 0 tl).
    { rewrite <- Hp. apply list_elem_of_fmap_2. exact Hl. }
    pose proof (level_dirs_bounds _ _ _ Hk) as Hb.
    destruct (level_dirs_lookup _ _ _ Hk) as (x & Hx & Hs).
    exists x. rewrite Z.sub_0_r in Hx. split; [exact Hx|]. split; [lia | exact Hs].
Qed.

Lemma walk_body_codec (dir : Z) (d : tdir) (s s' : ost) :
  walk_body E dir d s = (Ok tt, s') -> level_source dir d = true ->
  exists c, td_compression d = Some c /\ TIFFIsCODECConfigured E c = true.
Proof.
  intros H Hs. unfold level_source in Hs. unfold_m. crunch; use_eqns;
    try congruence; eauto.
  all: repeat match goal with
              | H : ?x = _, Hs' : context [?x] |- _ =>
                  match x with td_tiled _ => idtac | td_subfiletype _ => idtac
                          | (_ =? _) => idtac | (Z.land _ _ =? _) => idtac end;
                  rewrite H in Hs'
              end; simpl in *; try discriminate.
Qed.

Lemma walk_codec (ds : list tdir) (dir : Z) (s s' : ost) :
  walk E dir ds s = (Ok tt, s') ->
  forall (k : nat) x, ds !! k = Some x -> level_source (dir + Z.of_nat k) x = true ->
  exists c, td_compression x = Some c /\ TIFFIsCODECConfigured E c = true.
Proof.
  revert dir s. induction ds as [|d ds IH]; intros dir s H k x Hx Hs;
    [discriminate|]. simpl in H.
  unfold bind, modify in H.
  destruct (walk_body E dir d (set_cur_dir dir s)) as [[[]|e|] s1] eqn:Hb;
    try discriminate.
  destruct k as [|k]; simpl in Hx.
  - injection Hx as <-. rewrite Z.add_0_r in Hs. exact (walk_body_codec _ _ _ _ Hb Hs).
  - apply (IH _ _ H k x Hx). replace (dir + 1 + Z.of_nat k) with (dir + Z.of_nat (S k)) by lia.
    exact Hs.
Qed.

(** On success, every level-source directory has a readable compression
    scheme that libtiff is configured for. *)
(** On success, every level-source directory has a readable compression
    scheme that libtiff is configured for. *)
Theorem optra_open_ok_codecs (tl : tifflike) (s0 s' : ost) :
  optra_open E tl s0 = (Ok tt, s') ->
  forall (k : nat) x, tl !! k = Some x -> level_source (Z.of_nat k) x = true ->
  exists c, td_compression x = Some c /\ TIFFIsCODECConfigured E c = true.
Proof.
  intros H k x Hx Hs.
  destruct (optra_open_ok_inv E tl s0 s' H) as (s1 & s2 & top & Hw & _).
  exact (walk_codec _ _ _ _ Hw k x Hx Hs).
Qed.


Lemma walk_body_assoc (dir : Z) (d : tdir) (s s' : ost) (o : outcome unit) :
  walk_body E dir d s = (o, s') ->
  forall name dd, associated_images (osr s') !! name = Some dd ->
  associated_images (osr s) !! name = Some dd \/
  (dd = dir /\ dir <> 0 /\ td_tiled d = true /\
   (exists sft, td_subfiletype d = Some sft /\ Z.land sft FILETYPE_REDUCEDIMAGE = 0) /\
   td_desc d = Some name).
Proof.
  intros H name dd Hl. unfold_m. crunch; try (left; exact Hl).
  all: simpl in Hl; apply lookup_insert_Some in Hl as [[<- <-]|[_ Hl]]; [|left; exact Hl].
  all: right; repeat match goal with
                     | H : negb _ = true |- _ => apply negb_true_iff in H
                     | H : negb _ = false |- _ => apply negb_false_iff in H
                     | H : (_ =? _) = true |- _ => apply Z.eqb_eq in H
                     | H : (_ =? _) = false |- _ => apply Z.eqb_neq in H
                     end.
  all: repeat split; eauto.
Qed.

Lemma walk_assoc (ds : list tdir) (dir : Z) (s s' : ost) (o : outcome unit) :
  walk E dir ds s = (o, s') ->
  forall name dd, associated_images (osr s') !! name = Some dd ->
  associated_images (osr s) !! name = Some dd \/
  exists (k : nat) x, ds !! k = Some x /\ dd = dir + Z.of_nat k /\ dd <> 0 /\
    td_tiled x = true /\
    (exists sft, td_subfiletype x = Some sft /\ Z.land sft FILETYPE_REDUCEDIMAGE = 0) /\
    td_desc x = Some name.
Proof.
  revert dir s. induction ds as [|d ds IH]; intros dir s H name dd Hl; simpl in H.
  - unfold ret in H. injection H as _ <-. left. exact Hl.
  - unfold bind, modify in H.
    destruct (walk_body E dir d (set_cur_dir dir s)) as [[[]|e|] s1] eqn:Hb.
    + destruct (IH _ _ H _ _ Hl) as [Hl1|(k & x & Hx & Hd & Hrest)].
      * destruct (walk_body_assoc _ _ _ _ _ Hb _ _ Hl1) as [Hl0|(-> & Hrest)];
          [left; exact Hl0|].
        right. exists O, d. simpl. rewrite Z.add_0_r. auto.
      * right. exists (S k), x. simpl. split; [exact Hx|].
        split; [lia | exact Hrest].
    + injection H as _ <-.
      destruct (walk_body_assoc _ _ _ _ _ Hb _ _ Hl) as [Hl0|(-> & Hrest)];
        [left; exact Hl0|].
      right. exists O, d. simpl. rewrite Z.add_0_r. auto.
    + injection H as _ <-.
      destruct (walk_body_assoc _ _ _ _ _ Hb _ _ Hl) as [Hl0|(-> & Hrest)];
        [left; exact Hl0|].
      right. exists O, d. simpl. rewrite Z.add_0_r. auto.
Qed.

(** After a successful open, every associated image is ["thumbnail"],
    was already registered before the call, or is a tiled directory
    other than 0 without the reduced-image bit, registered under its
    image description. *)
(** After a successful open, every associated image is ["thumbnail"],
    was registered before the call, or is a tiled directory other than
    0 without the reduced-image bit, registered under its image
    description. *)
Theorem optra_open_ok_associated (tl : tifflike) (s0 s' : ost) :
  optra_open E tl s0 = (Ok tt, s') ->
  forall name dd, associated_images (osr s') !! name = Some dd ->
  name = "thumbnail"%string \/
  associated_images (osr s0) !! name = Some dd \/
  exists x, tl !! Z.to_nat dd = Some x /\ 0 < dd /\ td_tiled x = true /\
    (exists sft, td_subfiletype x = Some sft /\ Z.land sft FILETYPE_REDUCEDIMAGE = 0) /\
    td_desc x = Some name.
Proof.
  intros H name dd Hl. unfold_open. crunch. simpl in Hl.
  apply lookup_insert_Some in Hl as [[<- _]|[_ Hl]]; [left; reflexivity|right].
  match goal with Hw : walk E _ _ _ = _ |- _ =>
    destruct (walk_assoc _ _ _ _ _ Hw _ _ Hl) as [Hl0|(k & x & Hx & Hd & Hne & Hrest)]
  end.
  - left. exact Hl0.
  - right. exists x. subst dd. rewrite Z.add_0_l in *.
    rewrite Nat2Z.id. split; [exact Hx|]. split; [lia | exact Hrest].
Qed.

End OpenProvenance.

Section EarlyAndXml.
Context (E : lib).

(** A failure to get the TIFF handle, to read the XML packet or to
    parse it makes [optra_open] fail with that error and leaves the
    slide handle and the resources exactly as before the call. *)
Theorem optra_open_early_failure (tl : tifflike) (s0 : ost) (e : err) :
  (tiffcache_get_ok E = false /\ e = E_TiffOpen) \/
  (tiffcache_get_ok E = true /\ tifflike_get_xmlpacket tl 0 = None /\ e = E_XmlPacket) \/
  (tiffcache_get_ok E = true /\
   exists xml, tifflike_get_xmlpacket tl 0 = Some xml /\
     parse_initial_xml E xml (properties (osr s0)) = None /\
     e = parse_initial_xml_error E xml) ->
  fst (optra_open E tl s0) = Fail e /\
  osr (snd (optra_open E tl s0)) = osr s0 /\ res (snd (optra_open E tl s0)) = res s0.
Proof.
  intros Hc. unfold optra_open, optra_open_body, bind, modify, gets, fail.
  destruct Hc as [(Hg & ->)|[(Hg & Hx & ->)|(Hg & xml & Hx & Hp & ->)]];
    rewrite Hg; simpl; [| rewrite Hx | rewrite Hx; simpl; rewrite Hp]; simpl;
    unfold fail_cleanup, res_tiffcaches, res_tiffs_out; simpl;
    (split; [reflexivity|]); (split; [reflexivity|]);
    destruct (res s0); reflexivity.
Qed.

(** [optra_detect] looks at nothing but directory 0: containers with
    the same first directory get the same answer. *)
Theorem optra_detect_reads_dir0 (t1 t2 : tifflike) :
  t1 !! 0%nat = t2 !! 0%nat ->
  optra_detect E (Some t1) = optra_detect E (Some t2).
Proof.
  intros H. unfold optra_detect, tifflike_is_tiled, tifflike_get_xmlpacket.
  rewrite H. reflexivity.
Qed.

Lemma copy_attrs_frame (sc : xmlNode) (attrs : list xmlAttr) (props : gmap string string) (k : string) :
  ((forall n, k <> optra_key n) -> copy_attrs sc attrs props !! k = props !! k) /\
  (is_Some (props !! k) -> is_Some (copy_attrs sc attrs props !! k)).
Proof.
  revert props. induction attrs as [|a attrs IH]; intros props; simpl; [split; eauto|].
  destruct (IH (match xmlGetNoNsProp sc (attr_name a) with
                | Some value => if String.eqb value "" then props
                                else <[String.append "optra." (attr_name a) := value]> props
                | None => props end)) as [IH1 IH2].
  split.
  - intros Hk. rewrite IH1 by exact Hk.
    destruct (xmlGetNoNsProp sc (attr_name a)); [|reflexivity].
    destruct (String.eqb _ _); [reflexivity|].
    apply lookup_insert_ne. intros Heq. apply (Hk (attr_name a)). symmetry. exact Heq.
  - intros Hv. apply IH2.
    destruct (xmlGetNoNsProp sc (attr_name a)); [|exact Hv].
    destruct (String.eqb _ _); [exact Hv|].
    apply lookup_insert_is_Some'. right. exact Hv.
Qed.

Lemma duplicate_prop_frame (conv : string -> option string) (src dst k : string)
    (p : gmap string string) :
  is_Some (p !! k) -> is_Some (duplicate_prop conv src dst p !! k).
Proof.
  intros Hv. unfold duplicate_prop.
  destruct (p !! src); [|exact Hv]. destruct (conv s); [|exact Hv].
  apply lookup_insert_is_Some'. right. exact Hv.
Qed.

(** [parse_initial_xml] removes no property, and the only keys it
    writes are ["optra." ++ name] and the three standard ones. *)
Theorem parse_initial_xml_frame (xml : string) (props p' : gmap string string) :
  parse_initial_xml E xml props = Some p' ->
  (forall k, is_Some (props !! k) -> is_Some (p' !! k)) /\
  (forall k, (forall n, k <> String.append "optra." n) ->
     k <> OPENSLIDE_PROPERTY_NAME_OBJECTIVE_POWER -> k <> OPENSLIDE_PROPERTY_NAME_MPP_X ->
     k <> OPENSLIDE_PROPERTY_NAME_MPP_Y -> p' !! k = props !! k).
Proof.
  unfold parse_initial_xml, get_initial_root_xml. intros Hp.
  destruct (xml_parse E xml) as [root|]; [|discriminate].
  destruct (String.eqb (node_name root) XML_ROOT_TAG); [|discriminate].
  injection Hp as <-. split.
  - intros k Hk. do 3 apply duplicate_prop_frame.
    apply (proj2 (copy_attrs_frame _ _ _ k)). exact Hk.
  - intros k Hn Ho Hx Hy. rewrite !duplicate_prop_other by assumption.
    apply (proj1 (copy_attrs_frame _ _ _ k)). exact Hn.
Qed.


(** The standard properties [parse_initial_xml] derives: objective power
    from ["optra.Magnification"], and both mpp-x and mpp-y from
    ["optra.PixelResolution"], so that mpp-x and mpp-y are set together
    to the same value, or both left as they were. *)
Theorem parse_initial_xml_standard_props (xml : string) (props p' : gmap string string) :
  parse_initial_xml E xml props = Some p' ->
  ((exists v t, p' !! "optra.Magnification"%string = Some v /\ int_prop_text E v = Some t /\
      p' !! OPENSLIDE_PROPERTY_NAME_OBJECTIVE_POWER = Some t) \/
   p' !! OPENSLIDE_PROPERTY_NAME_OBJECTIVE_POWER = props !! OPENSLIDE_PROPERTY_NAME_OBJECTIVE_POWER) /\
  ((exists v t, p' !! "optra.PixelResolution"%string = Some v /\ double_prop_text E v = Some t /\
      p' !! OPENSLIDE_PROPERTY_NAME_MPP_X = Some t /\ p' !! OPENSLIDE_PROPERTY_NAME_MPP_Y = Some t) \/
   (p' !! OPENSLIDE_PROPERTY_NAME_MPP_X = props !! OPENSLIDE_PROPERTY_NAME_MPP_X /\
    p' !! OPENSLIDE_PROPERTY_NAME_MPP_Y = props !! OPENSLIDE_PROPERTY_NAME_MPP_Y)).
Proof.
  unfold parse_initial_xml, get_initial_root_xml. intros Hp.
  destruct (xml_parse E xml) as [root|]; [|discriminate].
  destruct (String.eqb (node_name root) XML_ROOT_TAG); [|discriminate].
  injection Hp as <-.
  set (p0 := copy_attrs root (node_properties root) props).
  set (p1 := duplicate_prop (int_prop_text E) "optra.Magnification"
               OPENSLIDE_PROPERTY_NAME_OBJECTIVE_POWER p0).
  set (PR := "optra.PixelResolution"%string).
  set (X := OPENSLIDE_PROPERTY_NAME_MPP_X). set (Y := OPENSLIDE_PROPERTY_NAME_MPP_Y).
  set (O := OPENSLIDE_PROPERTY_NAME_OBJECTIVE_POWER).
  assert (Hobj : p0 !! O = props !! O).
  { apply (proj1 (copy_attrs_frame _ _ _ _)). intros n. unfold O. simpl. discriminate. }
  assert (Hpx : p0 !! X = props !! X).
  { apply (proj1 (copy_attrs_frame _ _ _ _)). intros n. unfold X. simpl. discriminate. }
  assert (Hpy : p0 !! Y = props !! Y).
  { apply (proj1 (copy_attrs_frame _ _ _ _)). intros n. unfold Y. simpl. discriminate. }
  assert (Hx1 : p1 !! X = p0 !! X)
    by (apply duplicate_prop_other; unfold X, O; simpl; discriminate).
  assert (Hy1 : p1 !! Y = p0 !! Y)
    by (apply duplicate_prop_other; unfold Y, O; simpl; discriminate).
  assert (Hpr1 : p1 !! PR = p0 !! PR)
    by (apply duplicate_prop_other; unfold PR, O; simpl; discriminate).
  assert (Hm1 : p1 !! "optra.Magnification"%string = p0 !! "optra.Magnification"%string)
    by (apply duplicate_prop_other; unfold O; simpl; discriminate).
  (* what the two mpp duplications do to [p1] *)
  assert (Hrest : forall k, k <> X -> k <> Y ->
            duplicate_prop (double_prop_text E) PR Y
              (duplicate_prop (double_prop_text E) PR X p1) !! k = p1 !! k).
  { intros k HX HY. rewrite !duplicate_prop_other by congruence. reflexivity. }
  split.
  - assert (HO : O <> X /\ O <> Y) by (unfold O, X, Y; simpl; split; discriminate).
    assert (HM : "optra.Magnification"%string <> X /\ "optra.Magnification"%string <> Y)
      by (unfold X, Y; simpl; split; discriminate).
    destruct (p0 !! "optra.Magnification"%string) as [v|] eqn:Hv;
      [destruct (int_prop_text E v) as [t|] eqn:Ht|].
    + left. exists v, t. rewrite !Hrest by tauto. rewrite Hm1.
      split; [reflexivity|]. split; [exact Ht|].
      unfold p1, duplicate_prop. rewrite Hv, Ht. apply lookup_insert_eq.
    + right. rewrite !Hrest by tauto. unfold p1, duplicate_prop. rewrite Hv, Ht. exact Hobj.
    + right. rewrite !Hrest by tauto. unfold p1, duplicate_prop. rewrite Hv. exact Hobj.
  - assert (HXY : Y <> X) by (unfold X, Y; simpl; discriminate).
    assert (HPX : X <> PR /\ Y <> PR) by (unfold PR, X, Y; simpl; split; discriminate).
    destruct (p1 !! PR) as [v|] eqn:Hv; [destruct (double_prop_text E v) as [t|] eqn:Ht|].
    + assert (Hd : duplicate_prop (double_prop_text E) PR Y
                     (duplicate_prop (double_prop_text E) PR X p1) = <[Y:=t]> (<[X:=t]> p1)).
      { unfold duplicate_prop. rewrite Hv, Ht.
        rewrite lookup_insert_ne by tauto. rewrite Hv, Ht. reflexivity. }
      rewrite Hd. left. exists v, t.
      split; [rewrite !lookup_insert_ne by tauto; exact Hv|].
      split; [exact Ht|].
      split; [rewrite lookup_insert_ne by exact HXY; apply lookup_insert_eq | apply lookup_insert_eq].
    + assert (Hd : duplicate_prop (double_prop_text E) PR Y
                     (duplicate_prop (double_prop_text E) PR X p1) = p1).
      { unfold duplicate_prop. rewrite Hv, Ht. rewrite Hv, Ht. reflexivity. }
      right. rewrite Hd, Hx1, Hy1. auto.
    + assert (Hd : duplicate_prop (double_prop_text E) PR Y
                     (duplicate_prop (double_prop_text E) PR X p1) = p1).
      { unfold duplicate_prop. rewrite Hv. rewrite Hv. reflexivity. }
      right. rewrite Hd, Hx1, Hy1. auto.
Qed.

End EarlyAndXml.

Section ReadTileAccounting.
Context (tiff_read_tile : level -> Z -> Z -> option buffer).
Context (tiff_clip_tile : level -> Z -> Z -> buffer -> option buffer).

(** Every [read_tile] releases the cache-entry reference it takes
    (on a hit, after a put, and on failure, where it takes none). *)
Theorem read_tile_releases_entry (lid : Z) (l : level) (col row : Z) (t : tstate) :
  entry_refs (snd (read_tile tiff_read_tile tiff_clip_tile lid l col row t)) = entry_refs t.
Proof.
  unfold read_tile.
  destruct (cache t !! (lid, col, row)); simpl; [lia|].
  destruct (tiff_read_tile l col row) as [b|]; simpl; [|reflexivity].
  destruct (tiff_clip_tile l col row b); simpl; [lia | reflexivity].
Qed.



End ReadTileAccounting.

(** ** The tail-level read on an empty level array *)

Section EmptyPyramidWalk.
Context (E : lib).

(** Whether a directory's step of the walk succeeds does not depend on
    the state: every branch tests the directory or the libraries only. *)
Lemma walk_body_outcome_indep (dir : Z) (d : tdir) (s t : ost) :
  fst (walk_body E dir d s) = fst (walk_body E dir d t).
Proof.
  unfold walk_body, create_level, tiff_add_associated_image, bind, ret, fail, modify,
    modify_res, modify_osr.
  destruct (td_tiled d); simpl; [|reflexivity].
  destruct (dir =? 0); simpl.
  - destruct (td_compression d); simpl; [|reflexivity].
    destruct (negb _); simpl; [reflexivity|].
    destruct (tiff_level_init dir d); reflexivity.
  - destruct (td_subfiletype d); simpl; [|reflexivity].
    destruct (_ =? 0); simpl.
    + destruct (td_desc d); simpl; [|reflexivity].
      destruct (assoc_image_ok E dir); reflexivity.
    + destruct (td_width d); simpl; [|reflexivity].
      destruct (td_height d); simpl; [|reflexivity].
      destruct (_ && _); simpl;
      (destruct (td_compression d); simpl; [|reflexivity]);
      (destruct (negb _); simpl; [reflexivity|]);
      destruct (tiff_level_init dir d); reflexivity.
Qed.

Lemma walk_outcome_indep (ds : list tdir) (dir : Z) (s t : ost) :
  fst (walk E dir ds s) = fst (walk E dir ds t).
Proof.
  revert dir s t. induction ds as [|d ds IH]; intros dir s t; simpl; [reflexivity|].
  unfold bind, modify.
  pose proof (walk_body_outcome_indep dir d (set_cur_dir dir s) (set_cur_dir dir t)) as Hb.
  destruct (walk_body E dir d (set_cur_dir dir s)) as [o1 s1].
  destruct (walk_body E dir d (set_cur_dir dir t)) as [o2 t1].
  simpl in Hb. subst o2. destruct o1 as [[]| |]; simpl; auto.
Qed.

(** Only a level-source directory moves the thumbnail candidate. *)
Lemma walk_body_tn_dir_source (dir : Z) (d : tdir) (s s' : ost) :
  walk_body E dir d s = (Ok tt, s') -> tn_dir s' = tn_dir s \/ level_source dir d = true.
Proof.
  intros H. unfold_m. crunch; use_eqns; simpl in *; auto.
  all: right; unfold level_source; repeat match goal with Hq : ?a = _ |- context [?a] => rewrite Hq end; reflexivity.
Qed.

Lemma walk_tn_dir_no_level (ds : list tdir) (dir : Z) (s s' : ost) :
  walk E dir ds s = (Ok tt, s') -> level_dirs dir ds = [] -> tn_dir s' = tn_dir s.
Proof.
  revert dir s. induction ds as [|d ds IH]; intros dir s H Hl; simpl in *.
  - unfold ret in H. injection H as <-. reflexivity.
  - unfold bind, modify in H.
    destruct (walk_body E dir d (set_cur_dir dir s)) as [[[]|e|] s1] eqn:Hb;
      try discriminate.
    destruct (level_source dir d) eqn:Hls; [discriminate|]. simpl in Hl.
    rewrite (IH _ _ H Hl).
    destruct (walk_body_tn_dir_source _ _ _ _ Hb) as [->|]; [reflexivity|congruence].
Qed.


(** Claim C10: [optra_open] reads [pdata[len - 1]] of the sorted level
    array without checking that it is non-empty.  Take a container
    whose directory walk completes but makes no level: no directory is
    a level source (tiled, and directory 0 or carrying the
    reduced-image bit), so every tiled directory is a label or has no
    readable subfile type.  (The walk's outcome does not depend on the
    state it starts from, [walk_outcome_indep], so it is stated from
    [s0].)  If the steps before the walk succeed and the thumbnail
    (directory 0, as no level moved it) is registered, the level array
    is empty at the read: [len - 1] is the unsigned wrap-around
    [4294967295], past its end, and the run reaches undefined
    behaviour. *)
Theorem optra_open_empty_levels_out_of_bounds (tl : tifflike) (xml : string)
    (props : gmap string string) (s0 : ost) :
  tiffcache_get_ok E = true ->
  tifflike_get_xmlpacket tl 0 = Some xml ->
  parse_initial_xml E xml (properties (osr s0)) = Some props ->
  fst (walk E 0 tl s0) = Ok tt ->
  level_dirs 0 tl = [] ->
  assoc_image_ok E 0 = true ->
  guint_pred (Z.of_nat (length (g_ptr_array_sort [] width_compare))) = 4294967295 /\
  fst (optra_open E tl s0) = Undef.
Proof.
  intros Hget Hx Hp Hw Hnil Ha. split; [reflexivity|].
  unfold optra_open, optra_open_body, bind, modify, gets, fail.
  rewrite Hget, Hx. simpl. rewrite Hp.
  unfold modify_osr, modify, bind, gets.
  match goal with |- context [walk E 0 tl ?s] =>
    pose proof (walk_outcome_indep tl 0 s s0) as Ho;
    rewrite Hw in Ho;
    destruct (walk E 0 tl s) as [o sw] eqn:Hws; simpl in Ho; subst o;
    destruct (walk_level_dirs E tl 0 s sw [] Hws eq_refl) as [la' [Hla Hmap]];
    pose proof (walk_tn_dir_no_level tl 0 s sw Hws Hnil) as Htn
  end.
  rewrite Hnil in Hmap. simpl in Hmap.
  destruct la'; [|discriminate]. simpl in Htn.
  rewrite Htn. simpl.
  assert (Hlen : 0 < Z.of_nat (length tl)).
  { unfold tifflike_get_xmlpacket in Hx. destruct tl; [discriminate | simpl; lia]. }
  destruct (Z.ltb_spec 0 (Z.of_nat (length tl))) as [_|]; [|lia].
  unfold tiff_add_associated_image, modify_osr, modify, bind.
  simpl. rewrite Ha. simpl. rewrite Hla. reflexivity.
Qed.
End EmptyPyramidWalk.

Lemma table_index_spec (i : Z) : 0 <= i < 256 -> In i table_index.
Proof.
  intros Hi. unfold table_index. apply in_map_iff. exists (Z.to_nat i).
  split; [lia|]. apply in_seq. lia.
Qed.

(** [_openslide_R_Cr[i]] is [1.402 * (i - 128)] rounded exactly (the
    double computation makes no rounding error that changes the
    result), and lies in [-179, 178], within [int16_t]. *)
Theorem R_Cr_exact (i : Z) :
  0 <= i < 256 ->
  R_Cr i = Some (round_half_away (1402 * (i - 128)) 1000) /\
  -179 <= round_half_away (1402 * (i - 128)) 1000 <= 178.
Proof.
  intros Hi.
  assert (Hall : forallb (fun i =>
            match R_Cr i with
            | Some v => (v =? round_half_away (1402 * (i - 128)) 1000) && (-179 <=? v) && (v <=? 178)
            | None => false
            end) table_index = true) by (vm_compute; reflexivity).
  rewrite forallb_forall in Hall. specialize (Hall i (table_index_spec i Hi)).
  destruct (R_Cr i) as [v|]; [|discriminate].
  apply andb_true_iff in Hall as [Hall H2]. apply andb_true_iff in Hall as [H0 H1].
  apply Z.eqb_eq in H0. apply Z.leb_le in H1. apply Z.leb_le in H2. subst v. auto.
Qed.

(** [_openslide_B_Cb[i]] is [1.772 * (i - 128)] rounded exactly, and
    lies in [-227, 225], within [int16_t]. *)
Theorem B_Cb_exact (i : Z) :
  0 <= i < 256 ->
  B_Cb i = Some (round_half_away (1772 * (i - 128)) 1000) /\
  -227 <= round_half_away (1772 * (i - 128)) 1000 <= 225.
Proof.
  intros Hi.
  assert (Hall : forallb (fun i =>
            match B_Cb i with
            | Some v => (v =? round_half_away (1772 * (i - 128)) 1000) && (-227 <=? v) && (v <=? 225)
            | None => false
            end) table_index = true) by (vm_compute; reflexivity).
  rewrite forallb_forall in Hall. specialize (Hall i (table_index_spec i Hi)).
  destruct (B_Cb i) as [v|]; [|discriminate].
  apply andb_true_iff in Hall as [Hall H2]. apply andb_true_iff in Hall as [H0 H1].
  apply Z.eqb_eq in H0. apply Z.leb_le in H1. apply Z.leb_le in H2. subst v. auto.
Qed.

(** [_openslide_G_CbCr[i][j]] is
    [-0.34414 * (i - 128) - 0.71414 * (j - 128)] rounded exactly, and
    lies in [-134, 135], within [int16_t]. *)
Theorem G_CbCr_exact (i j : Z) :
  0 <= i < 256 -> 0 <= j < 256 ->
  G_CbCr i j = Some (round_half_away (- 34414 * (i - 128) - 71414 * (j - 128)) 100000) /\
  -134 <= round_half_away (- 34414 * (i - 128) - 71414 * (j - 128)) 100000 <= 135.
Proof.
  intros Hi Hj.
  assert (Hall : forallb (fun i => forallb (fun j =>
            match G_CbCr i j with
            | Some v => (v =? round_half_away (- 34414 * (i - 128) - 71414 * (j - 128)) 100000)
                        && (-134 <=? v) && (v <=? 135)
            | None => false
            end) table_index) table_index = true) by (vm_compute; reflexivity).
  rewrite forallb_forall in Hall. specialize (Hall i (table_index_spec i Hi)).
  rewrite forallb_forall in Hall. specialize (Hall j (table_index_spec j Hj)).
  destruct (G_CbCr i j) as [v|]; [|discriminate].
  apply andb_true_iff in Hall as [Hall H2]. apply andb_true_iff in Hall as [H0 H1].
  apply Z.eqb_eq in H0. apply Z.leb_le in H1. apply Z.leb_le in H2. subst v. auto.
Qed.

(** ** Instances of the extra properties' hypotheses *)

Lemma optra_open_installs_levels_witness :
  optra_open sample_lib sample_tl sample_st =
    (Ok tt, snd (optra_open sample_lib sample_tl sample_st)) /\
  exists ls,
    levels (osr (snd (optra_open sample_lib sample_tl sample_st))) = Some ls /\ ls <> [] /\
    level_count (osr (snd (optra_open sample_lib sample_tl sample_st))) = Z.of_nat (length ls) /\
    data_set (osr (snd (optra_open sample_lib sample_tl sample_st))) = true /\
    ops_set (osr (snd (optra_open sample_lib sample_tl sample_st))) = true /\
    level_array (snd (optra_open sample_lib sample_tl sample_st)) = None /\
    tiff_held (snd (optra_open sample_lib sample_tl sample_st)) = false.
Proof.
  assert (H : optra_open sample_lib sample_tl sample_st =
                (Ok tt, snd (optra_open sample_lib sample_tl sample_st)))
    by (vm_compute; reflexivity).
  split; [exact H|].
  exact (optra_open_installs_levels sample_lib sample_tl sample_st _ H).
Defined.

Lemma optra_open_ok_resources_witness :
  optra_open sample_lib sample_tl sample_st =
    (Ok tt, snd (optra_open sample_lib sample_tl sample_st)) /\
  exists ls, levels (osr (snd (optra_open sample_lib sample_tl sample_st))) = Some ls /\
    res (snd (optra_open sample_lib sample_tl sample_st)) =
      mkRes (S (tiffcaches (res sample_st))) (tiffs_out (res sample_st))
        (live_levels (res sample_st) + length ls) (live_grids (res sample_st) + length ls).
Proof.
  assert (H : optra_open sample_lib sample_tl sample_st =
                (Ok tt, snd (optra_open sample_lib sample_tl sample_st)))
    by (vm_compute; reflexivity).
  split; [exact H|].
  exact (optra_open_ok_resources sample_lib sample_tl sample_st _ H).
Defined.

Lemma optra_open_destroy_releases_witness :
  optra_open sample_lib sample_tl sample_st =
    (Ok tt, snd (optra_open sample_lib sample_tl sample_st)) /\
  fst (destroy (snd (optra_open sample_lib sample_tl sample_st))) = Ok tt /\
  res (snd (destroy (snd (optra_open sample_lib sample_tl sample_st)))) = res sample_st.
Proof.
  assert (H : optra_open sample_lib sample_tl sample_st =
                (Ok tt, snd (optra_open sample_lib sample_tl sample_st)))
    by (vm_compute; reflexivity).
  split; [exact H|].
  exact (optra_open_destroy_releases sample_lib sample_tl sample_st _ H).
Defined.

Lemma optra_open_levels_from_sources_witness :
  let s' := snd (optra_open sample_lib sample_tl sample_st) in
  let ls := default [] (levels (osr s')) in
  optra_open sample_lib sample_tl sample_st = (Ok tt, s') /\
  levels (osr s') = Some ls /\
  Permutation (map lv_dir ls) (level_dirs 0 sample_tl) /\ NoDup (map lv_dir ls) /\
  forall l, l ∈ ls ->
    exists x, sample_tl !! Z.to_nat (lv_dir l) = Some x /\ 0 <= lv_dir l /\
      level_source (lv_dir l) x = true.
Proof.
  intros s' ls.
  assert (H1 : optra_open sample_lib sample_tl sample_st = (Ok tt, s'))
    by (vm_compute; reflexivity).
  assert (H2 : levels (osr s') = Some ls) by (vm_compute; reflexivity).
  split; [exact H1|]. split; [exact H2|].
  exact (optra_open_levels_from_sources sample_lib sample_tl sample_st s' ls H1 H2).
Defined.

Lemma optra_open_ok_codecs_witness :
  let s' := snd (optra_open sample_lib sample_tl sample_st) in
  optra_open sample_lib sample_tl sample_st = (Ok tt, s') /\
  sample_tl !! 1%nat = Some (sample_dir true (Some 1) 20000 15000 7) /\
  level_source 1 (sample_dir true (Some 1) 20000 15000 7) = true /\
  exists c, td_compression (sample_dir true (Some 1) 20000 15000 7) = Some c /\
    TIFFIsCODECConfigured sample_lib c = true.
Proof.
  intros s'.
  assert (H1 : optra_open sample_lib sample_tl sample_st = (Ok tt, s'))
    by (vm_compute; reflexivity).
  assert (H2 : sample_tl !! 1%nat = Some (sample_dir true (Some 1) 20000 15000 7))
    by reflexivity.
  assert (H3 : level_source (Z.of_nat 1) (sample_dir true (Some 1) 20000 15000 7) = true)
    by (vm_compute; reflexivity).
  split; [exact H1|]. split; [exact H2|]. split; [exact H3|].
  exact (optra_open_ok_codecs sample_lib sample_tl sample_st s' H1 1%nat _ H2 H3).
Defined.

Lemma optra_open_ok_associated_witness :
  let s' := snd (optra_open sample_lib sample_tl sample_st) in
  optra_open sample_lib sample_tl sample_st = (Ok tt, s') /\
  associated_images (osr s') !! "label"%string = Some 3 /\
  ("label"%string = "thumbnail"%string \/
   associated_images (osr sample_st) !! "label"%string = Some 3 \/
   exists x, sample_tl !! Z.to_nat 3 = Some x /\ 0 < 3 /\ td_tiled x = true /\
     (exists sft, td_subfiletype x = Some sft /\ Z.land sft FILETYPE_REDUCEDIMAGE = 0) /\
     td_desc x = Some "label"%string).
Proof.
  intros s'.
  assert (H1 : optra_open sample_lib sample_tl sample_st = (Ok tt, s'))
    by (vm_compute; reflexivity).
  assert (H2 : associated_images (osr s') !! "label"%string = Some 3)
    by (vm_compute; reflexivity).
  split; [exact H1|]. split; [exact H2|].
  exact (optra_open_ok_associated sample_lib sample_tl sample_st s' H1 _ _ H2).
Defined.

Lemma optra_open_early_failure_witness :
  (tiffcache_get_ok sample_lib = true /\ tifflike_get_xmlpacket [] 0 = None /\
   E_XmlPacket = E_XmlPacket) /\
  fst (optra_open sample_lib [] sample_st) = Fail E_XmlPacket /\
  osr (snd (optra_open sample_lib [] sample_st)) = osr sample_st /\
  res (snd (optra_open sample_lib [] sample_st)) = res sample_st.
Proof.
  assert (H : tiffcache_get_ok sample_lib = true /\ tifflike_get_xmlpacket [] 0 = None /\
              E_XmlPacket = E_XmlPacket) by (vm_compute; repeat split).
  split; [exact H|].
  exact (optra_open_early_failure sample_lib [] sample_st E_XmlPacket (or_intror (or_introl H))).
Defined.

Lemma optra_detect_reads_dir0_witness :
  sample_tl !! 0%nat = take 1 sample_tl !! 0%nat /\
  optra_detect sample_lib (Some sample_tl) = optra_detect sample_lib (Some (take 1 sample_tl)).
Proof.
  assert (H : sample_tl !! 0%nat = take 1 sample_tl !! 0%nat) by reflexivity.
  split; [exact H|].
  exact (optra_detect_reads_dir0 sample_lib sample_tl (take 1 sample_tl) H).
Defined.

Lemma parse_initial_xml_frame_witness :
  let props : gmap string string := {[ "tiff.Make"%string := "Optra"%string ]} in
  let p' := default ∅ (parse_initial_xml sample_lib sample_xml props) in
  parse_initial_xml sample_lib sample_xml props = Some p' /\
  (forall k, is_Some (props !! k) -> is_Some (p' !! k)) /\
  (forall k, (forall n, k <> String.append "optra." n) ->
     k <> OPENSLIDE_PROPERTY_NAME_OBJECTIVE_POWER -> k <> OPENSLIDE_PROPERTY_NAME_MPP_X ->
     k <> OPENSLIDE_PROPERTY_NAME_MPP_Y -> p' !! k = props !! k).
Proof.
  intros props p'.
  assert (H : parse_initial_xml sample_lib sample_xml props = Some p')
    by (vm_compute; reflexivity).
  split; [exact H|].
  exact (parse_initial_xml_frame sample_lib sample_xml props p' H).
Defined.

Lemma parse_initial_xml_standard_props_witness :
  let p' := default ∅ (parse_initial_xml sample_lib sample_xml ∅) in
  parse_initial_xml sample_lib sample_xml ∅ = Some p' /\
  ((exists v t, p' !! "optra.Magnification"%string = Some v /\ int_prop_text sample_lib v = Some t /\
      p' !! OPENSLIDE_PROPERTY_NAME_OBJECTIVE_POWER = Some t) \/
   p' !! OPENSLIDE_PROPERTY_NAME_OBJECTIVE_POWER =
     (∅ : gmap string string) !! OPENSLIDE_PROPERTY_NAME_OBJECTIVE_POWER) /\
  ((exists v t, p' !! "optra.PixelResolution"%string = Some v /\
      double_prop_text sample_lib v = Some t /\
      p' !! OPENSLIDE_PROPERTY_NAME_MPP_X = Some t /\ p' !! OPENSLIDE_PROPERTY_NAME_MPP_Y = Some t) \/
   (p' !! OPENSLIDE_PROPERTY_NAME_MPP_X =
      (∅ : gmap string string) !! OPENSLIDE_PROPERTY_NAME_MPP_X /\
    p' !! OPENSLIDE_PROPERTY_NAME_MPP_Y =
      (∅ : gmap string string) !! OPENSLIDE_PROPERTY_NAME_MPP_Y)).
Proof.
  intros p'.
  assert (H : parse_initial_xml sample_lib sample_xml ∅ = Some p')
    by (vm_compute; reflexivity).
  split; [exact H|].
  exact (parse_initial_xml_standard_props sample_lib sample_xml ∅ p' H).
Defined.

Lemma R_Cr_exact_witness :
  0 <= 0 < 256 /\
  R_Cr 0 = Some (round_half_away (1402 * (0 - 128)) 1000) /\
  -179 <= round_half_away (1402 * (0 - 128)) 1000 <= 178.
Proof.
  assert (H : 0 <= 0 < 256) by lia.
  split; [exact H|]. exact (R_Cr_exact 0 H).
Defined.

Lemma B_Cb_exact_witness :
  0 <= 255 < 256 /\
  B_Cb 255 = Some (round_half_away (1772 * (255 - 128)) 1000) /\
  -227 <= round_half_away (1772 * (255 - 128)) 1000 <= 225.
Proof.
  assert (H : 0 <= 255 < 256) by lia.
  split; [exact H|]. exact (B_Cb_exact 255 H).
Defined.

Lemma G_CbCr_exact_witness :
  (0 <= 0 < 256 /\ 0 <= 255 < 256) /\
  G_CbCr 0 255 = Some (round_half_away (- 34414 * (0 - 128) - 71414 * (255 - 128)) 100000) /\
  -134 <= round_half_away (- 34414 * (0 - 128) - 71414 * (255 - 128)) 100000 <= 135.
Proof.
  assert (H1 : 0 <= 0 < 256) by lia.
  assert (H2 : 0 <= 255 < 256) by lia.
  split; [split; assumption|]. exact (G_CbCr_exact 0 255 H1 H2).
Defined.

(** An untiled directory 0 and a tiled label image: the walk completes
    without a level and theorem C10 applies. *)
Lemma optra_open_empty_levels_out_of_bounds_witness :
  tiffcache_get_ok sample_lib = true /\
  tifflike_get_xmlpacket sample_tl_label_only 0 = Some sample_xml /\
  parse_initial_xml sample_lib sample_xml (properties (osr sample_st)) =
    Some (default ∅ (parse_initial_xml sample_lib sample_xml (properties (osr sample_st)))) /\
  fst (walk sample_lib 0 sample_tl_label_only sample_st) = Ok tt /\
  level_dirs 0 sample_tl_label_only = [] /\
  assoc_image_ok sample_lib 0 = true /\
  guint_pred (Z.of_nat (length (g_ptr_array_sort [] width_compare))) = 4294967295 /\
  fst (optra_open sample_lib sample_tl_label_only sample_st) = Undef.
Proof.
  assert (H1 : tiffcache_get_ok sample_lib = true) by reflexivity.
  assert (H2 : tifflike_get_xmlpacket sample_tl_label_only 0 = Some sample_xml) by reflexivity.
  assert (H3 : parse_initial_xml sample_lib sample_xml (properties (osr sample_st)) =
    Some (default ∅ (parse_initial_xml sample_lib sample_xml (properties (osr sample_st)))))
    by (vm_compute; reflexivity).
  assert (H4 : fst (walk sample_lib 0 sample_tl_label_only sample_st) = Ok tt)
    by (vm_compute; reflexivity).
  assert (H5 : level_dirs 0 sample_tl_label_only = []) by (vm_compute; reflexivity).
  assert (H6 : assoc_image_ok sample_lib 0 = true) by reflexivity.
  do 6 (split; [assumption|]).
  exact (optra_open_empty_levels_out_of_bounds sample_lib sample_tl_label_only sample_xml _
           sample_st H1 H2 H3 H4 H5 H6).
Defined.
